(** * Admin-panel scripts of the automation dashboard: a shallow embedding

    The development follows two browser scripts of the repository:
    the automation dashboard script (global [automationData],
    [refreshInterval], the [update...] renderers, the scheduling and
    activity actions) and [adminpanel/static/admin/activity.js] (class
    [ActivityManager]).

    Conventions of the embedding.
    - A JavaScript string is its sequence of UTF-16 code units.  String
      literals of the scripts are written with [utf8], which decodes
      the bytes the source file holds.
    - A JavaScript number is an exact decimal [m * 10^e], or NaN, or an
      infinity; binary64 rounding and the sign of zero are not
      represented.  A quotient that has no finite decimal expansion is
      left to [inexact_quotient], an argument of the division.
    - A JSON object received from the server is a record whose fields
      are scalar JavaScript values; a field the server left out reads
      as [VUndefined].  An argument a function uses as a string is a
      string.
    - The browser is a state record ([page]): the globals of the script,
      the parts of the document the script touches, the live interval
      timers, and the log of requests and notifications issued so far.
      Markup the script writes is kept as structure (the options of a
      select, the rows of the table with the values that fill the
      template), not as text to be parsed again.  A promise callback is
      a function of its own, named after the function that installs it
      ([_then]). *)

From Stdlib Require Import ZArith NArith List Ascii String Lia Bool.
From stdpp Require Import gmap list.
Import ListNotations.

Local Open Scope N_scope.
Local Open Scope list_scope.

(** ** Strings *)

Module JSString.

Abbreviation code_unit := N (only parsing).
Abbreviation jsstring := (list N) (only parsing).

(** Decoding of a source literal (UTF-8 bytes) into code units.  Only
    the one-, two- and three-byte forms occur in the scripts. *)
Fixpoint utf8 (s : string) : jsstring :=
  match s with
  | EmptyString => []
  | String a r =>
    let b := N_of_ascii a in
    if b <? 128 then b :: utf8 r
    else if b <? 224 then
      match r with
      | String a1 r1 => ((b - 192) * 64 + (N_of_ascii a1 - 128)) :: utf8 r1
      | EmptyString => [65533]
      end
    else
      match r with
      | String a1 (String a2 r2) =>
        ((b - 224) * 4096 + (N_of_ascii a1 - 128) * 64 + (N_of_ascii a2 - 128))
          :: utf8 r2
      | _ => [65533]
      end
  end.

(** The double quote, which a literal of this file cannot hold. *)
Definition quot : jsstring := [34].

(** WhiteSpace and LineTerminator code points of ECMAScript, the set
    that [trim], [parseInt] and [parseFloat] strip. *)
Definition isWhiteSpace (c : code_unit) : bool :=
  ((9 <=? c) && (c <=? 13)) || (c =? 32) || (c =? 160) || (c =? 5760)
  || ((8192 <=? c) && (c <=? 8202)) || (c =? 8232) || (c =? 8233)
  || (c =? 8239) || (c =? 8287) || (c =? 12288) || (c =? 65279).

Fixpoint drop_while (p : code_unit -> bool) (s : jsstring) : jsstring :=
  match s with
  | [] => []
  | c :: t => if p c then drop_while p t else s
  end.

Fixpoint take_while (p : code_unit -> bool) (s : jsstring) : jsstring :=
  match s with
  | [] => []
  | c :: t => if p c then c :: take_while p t else []
  end.

Definition trimStart (s : jsstring) : jsstring := drop_while isWhiteSpace s.
Definition trimEnd (s : jsstring) : jsstring := rev (drop_while isWhiteSpace (rev s)).
(** [String.prototype.trim] *)
Definition trim (s : jsstring) : jsstring := trimEnd (trimStart s).

Fixpoint starts_with (p s : jsstring) : bool :=
  match p, s with
  | [], _ => true
  | a :: p', b :: s' => (a =? b) && starts_with p' s'
  | _ :: _, [] => false
  end.

(** [String.prototype.includes] with a string argument. *)
Fixpoint includes (needle s : jsstring) : bool :=
  starts_with needle s ||
  match s with
  | [] => false
  | _ :: t => includes needle t
  end.

(** [String.prototype.replace] with a string pattern: the first
    occurrence only.  The replacement text is taken literally (the
    scripts pass the empty string). *)
Fixpoint replace (pat rep s : jsstring) : jsstring :=
  if starts_with pat s then rep ++ drop (length pat) s
  else match s with
       | [] => []
       | c :: t => c :: replace pat rep t
       end.

Definition jsstring_eqb (a b : jsstring) : bool := bool_decide (a = b).

End JSString.
Export JSString.

(** ** Regular expressions

    The fragment the scripts use: classes, sequence, alternation and
    iteration, matched by derivatives.  A pattern written [^r$]
    (without flags) accepts a string exactly when [r] matches all of
    it. *)

Module RegExp.

Inductive regex :=
| Void
| Eps
| Class (p : code_unit -> bool)
| Seq (r1 r2 : regex)
| Alt (r1 r2 : regex)
| Star (r : regex).

Definition Plus (r : regex) : regex := Seq r (Star r).

Fixpoint nullable (r : regex) : bool :=
  match r with
  | Void => false
  | Eps => true
  | Class _ => false
  | Seq r1 r2 => nullable r1 && nullable r2
  | Alt r1 r2 => nullable r1 || nullable r2
  | Star _ => true
  end.

Fixpoint deriv (c : code_unit) (r : regex) : regex :=
  match r with
  | Void => Void
  | Eps => Void
  | Class p => if p c then Eps else Void
  | Seq r1 r2 =>
    if nullable r1 then Alt (Seq (deriv c r1) r2) (deriv c r2)
    else Seq (deriv c r1) r2
  | Alt r1 r2 => Alt (deriv c r1) (deriv c r2)
  | Star r1 => Seq (deriv c r1) (Star r1)
  end.

Fixpoint matches (r : regex) (s : jsstring) : bool :=
  match s with
  | [] => nullable r
  | c :: t => matches (deriv c r) t
  end.

(** [/^r$/.test(s)] *)
Definition test_anchored (r : regex) (s : jsstring) : bool := matches r s.

Definition in_range (lo hi c : code_unit) : bool := (lo <=? c) && (c <=? hi).

End RegExp.

(** ** Numbers *)

Module JSNumber.
Local Open Scope Z_scope.

(** [Dec m e] is the number [m * 10^e]. *)
Inductive number :=
| NaN
| Inf (negative : bool)
| Dec (m e : Z).

#[global] Instance number_eq_dec : EqDecision number.
Proof. solve_decision. Defined.

(** Numeric [===]. *)
Definition num_eqb (x y : number) : bool :=
  match x, y with
  | Dec m1 e1, Dec m2 e2 =>
    let e := Z.min e1 e2 in
    m1 * 10 ^ (e1 - e) =? m2 * 10 ^ (e2 - e)
  | Inf a, Inf b => Bool.eqb a b
  | _, _ => false
  end.

Definition is_zero (x : number) : bool :=
  match x with
  | Dec m _ => m =? 0
  | _ => false
  end.

Definition num_mul (x y : number) : number :=
  match x, y with
  | NaN, _ | _, NaN => NaN
  | Inf a, Inf b => Inf (xorb a b)
  | Inf a, Dec m _ | Dec m _, Inf a =>
    if m =? 0 then NaN else Inf (xorb a (m <? 0))
  | Dec m1 e1, Dec m2 e2 => Dec (m1 * m2) (e1 + e2)
  end.

Section Division.
(** What the runtime returns for a quotient of two finite numbers
    that no finite decimal equals. *)
Variable inexact_quotient : number -> number -> number.

Definition num_div (x y : number) : number :=
  match x, y with
  | NaN, _ | _, NaN => NaN
  | Inf _, Inf _ => NaN
  | Inf a, Dec m _ => Inf (xorb a (m <? 0))
  | Dec _ _, Inf _ => Dec 0 0
  | Dec m1 e1, Dec m2 e2 =>
    if m2 =? 0 then (if m1 =? 0 then NaN else Inf (m1 <? 0))
    else
      let k := Z.log2 (Z.abs m2) in
      if (m1 * 10 ^ k) mod m2 =? 0
      then Dec ((m1 * 10 ^ k) / m2) (e1 - e2 - k)
      else inexact_quotient x y
  end.
End Division.

(** [Math.floor] *)
Definition floor (x : number) : number :=
  match x with
  | Dec m e => if 0 <=? e then Dec m e else Dec (m / 10 ^ (- e)) 0
  | _ => x
  end.

(** [0 <= x < 1], the range of [Math.random()]. *)
Definition in_unit_interval (x : number) : bool :=
  match x with
  | Dec m e => (0 <=? m) && ((e <? 0) && (m <? 10 ^ (- e)) || (m =? 0))
  | _ => false
  end.

(** The element an array holds at a numeric index; [None] is
    JavaScript's [undefined] for an index that is no element. *)
Definition array_get {A} (l : list A) (i : number) : option A :=
  match i with
  | Dec m e =>
    if m <? 0 then None
    else if 0 <=? e then nth_error l (Z.to_nat (m * 10 ^ e))
    else if m mod 10 ^ (- e) =? 0 then nth_error l (Z.to_nat (m / 10 ^ (- e)))
    else None
  | _ => None
  end.

(** *** Decimal digits *)

Definition isDigit (c : code_unit) : bool := ((48 <=? c) && (c <=? 57))%N.

Fixpoint digits_aux (fuel : nat) (n : N) (acc : jsstring) : jsstring :=
  match fuel with
  | O => acc
  | S f =>
    let acc' := (48 + n mod 10)%N :: acc in
    if (n <? 10)%N then acc' else digits_aux f (n / 10)%N acc'
  end.

(** The decimal digits of [n], most significant first. *)
Definition digits (n : N) : jsstring :=
  digits_aux (S (N.to_nat (N.log2 n))) n [].

Definition digits_value (s : jsstring) : N :=
  fold_left (fun a c => (10 * a + (c - 48))%N) s 0%N.

Definition strip_trailing_zeros (s : jsstring) : jsstring :=
  rev (drop_while (N.eqb 48) (rev s)).

Definition exponent_text (ex : Z) : jsstring :=
  (if ex <? 0 then utf8 "-" else utf8 "+") ++ digits (Z.abs_N ex).

(** Number::toString for radix 10, on the digits [s] (no trailing
    zero, [k] of them) of a number [s * 10^(n-k)]. *)
Definition format (s : jsstring) (k n : Z) : jsstring :=
  if (k <=? n) && (n <=? 21) then s ++ replicate (Z.to_nat (n - k)) 48%N
  else if (0 <? n) && (n <=? 21) then
    take (Z.to_nat n) s ++ utf8 "." ++ drop (Z.to_nat n) s
  else if (-6 <? n) && (n <=? 0) then
    utf8 "0." ++ replicate (Z.to_nat (- n)) 48%N ++ s
  else
    match s with
    | [] => []
    | d :: rest =>
      d :: match rest with [] => [] | _ => utf8 "." ++ rest end
        ++ utf8 "e" ++ exponent_text (n - 1)
    end.

Definition Number_toString (x : number) : jsstring :=
  match x with
  | NaN => utf8 "NaN"
  | Inf b => (if b then utf8 "-" else []) ++ utf8 "Infinity"
  | Dec m e =>
    if m =? 0 then utf8 "0"
    else
      let ds := digits (Z.abs_N m) in
      let s := strip_trailing_zeros ds in
      (if m <? 0 then utf8 "-" else [])
        ++ format s (Z.of_nat (length s)) (e + Z.of_nat (length ds))
  end.

(** *** Parsing *)

Definition strip_sign (s : jsstring) : bool * jsstring :=
  match s with
  | 45%N :: t => (true, t)
  | 43%N :: t => (false, t)
  | _ => (false, s)
  end.

Definition signed (neg : bool) (v : N) : Z :=
  if neg then - Z.of_N v else Z.of_N v.

Definition digit_of (c : code_unit) : option N :=
  (if RegExp.in_range 48 57 c then Some (c - 48)
   else if RegExp.in_range 97 122 c then Some (c - 87)
   else if RegExp.in_range 65 90 c then Some (c - 55)
   else None)%N.

Definition is_radix_digit (R : N) (c : code_unit) : bool :=
  match digit_of c with
  | Some d => (d <? R)%N
  | None => false
  end.

Definition radix_value (R : N) (s : jsstring) : N :=
  fold_left (fun a c => (R * a + default 0 (digit_of c))%N) s 0%N.

(** [parseInt(string)] without a radix. *)
Definition parseInt (input : jsstring) : number :=
  let '(neg, s) := strip_sign (trimStart input) in
  let '(R, s) :=
    match s with
    | 48%N :: x :: t => if ((x =? 120) || (x =? 88))%N then (16%N, t) else (10%N, s)
    | _ => (10%N, s)
    end in
  match take_while (is_radix_digit R) s with
  | [] => NaN
  | z => Dec (signed neg (radix_value R z)) 0
  end.

(** ExponentPart, when one is there: its value and the text after it. *)
Definition scan_exponent (r : jsstring) : Z * jsstring :=
  match r with
  | c :: t =>
    if ((c =? 101) || (c =? 69))%N then
      let '(eneg, t') := strip_sign t in
      match take_while isDigit t' with
      | [] => (0, r)
      | ed => (signed eneg (digits_value ed), drop_while isDigit t')
      end
    else (0, r)
  | [] => (0, r)
  end.

(** The longest prefix that is a StrUnsignedDecimalLiteral, read
    under the sign [neg]: its value and the text after it. *)
Definition scan_unsigned (neg : bool) (s : jsstring) : option (number * jsstring) :=
  if starts_with (utf8 "Infinity") s then Some (Inf neg, drop 8 s)
  else
    let ip := take_while isDigit s in
    let r1 := drop_while isDigit s in
    let '(fp, r2) :=
      match r1 with
      | 46%N :: t => (take_while isDigit t, drop_while isDigit t)
      | _ => ([], r1)
      end in
    match ip ++ fp with
    | [] => None
    | ds =>
      let '(ex, r3) := scan_exponent r2 in
      Some (Dec (signed neg (digits_value ds)) (ex - Z.of_nat (length fp)), r3)
    end.

(** The longest prefix that is a StrDecimalLiteral. *)
Definition scan_decimal (input : jsstring) : option (number * jsstring) :=
  let '(neg, s) := strip_sign input in
  scan_unsigned neg s.

Definition parseFloat (input : jsstring) : number :=
  match scan_decimal (trimStart input) with
  | Some (v, _) => v
  | None => NaN
  end.

(** A literal [0x..], [0o..] or [0b..]: its radix and digits. *)
Definition radix_literal (t : jsstring) : option (N * jsstring) :=
  match t with
  | 48%N :: x :: r =>
    if ((x =? 120) || (x =? 88))%N then Some (16%N, r)
    else if ((x =? 111) || (x =? 79))%N then Some (8%N, r)
    else if ((x =? 98) || (x =? 66))%N then Some (2%N, r)
    else None
  | _ => None
  end.

(** ToNumber applied to a string. *)
Definition StringToNumber (s : jsstring) : number :=
  match trim s with
  | [] => Dec 0 0
  | t =>
    match radix_literal t with
    | Some (R, r) =>
      match r with
      | [] => NaN
      | _ => if forallb (is_radix_digit R) r then Dec (Z.of_N (radix_value R r)) 0 else NaN
      end
    | None =>
      match scan_decimal t with
      | Some (v, []) => v
      | _ => NaN
      end
    end
  end.

End JSNumber.
Export JSNumber.

(** ** Values *)

Module JSValue.

(** The scalar values, and [VBuiltin] for the objects of the runtime
    that a property read can return (the members of
    [Object.prototype]). *)
Inductive value :=
| VUndefined
| VNull
| VBool (b : bool)
| VNum (n : number)
| VStr (s : jsstring)
| VBuiltin (name : jsstring).

#[global] Instance value_eq_dec : EqDecision value.
Proof. solve_decision. Defined.

Definition ToBoolean (v : value) : bool :=
  match v with
  | VUndefined | VNull => false
  | VBool b => b
  | VNum NaN => false
  | VNum n => negb (is_zero n)
  | VStr [] => false
  | VStr _ => true
  | VBuiltin _ => true
  end.

Definition ToString (v : value) : jsstring :=
  match v with
  | VUndefined => utf8 "undefined"
  | VNull => utf8 "null"
  | VBool true => utf8 "true"
  | VBool false => utf8 "false"
  | VNum n => Number_toString n
  | VStr s => s
  | VBuiltin name =>
    if jsstring_eqb name (utf8 "Object.prototype") then utf8 "[object Object]"
    else utf8 "function " ++ name ++ utf8 "() { [native code] }"
  end.

Definition ToNumber (v : value) : number :=
  match v with
  | VUndefined => NaN
  | VNull => Dec 0 0
  | VBool b => Dec (if b then 1 else 0) 0
  | VNum n => n
  | VStr s => StringToNumber s
  | VBuiltin _ => NaN
  end.

(** [a === b] *)
Definition strict_eq (a b : value) : bool :=
  match a, b with
  | VUndefined, VUndefined | VNull, VNull => true
  | VBool x, VBool y => Bool.eqb x y
  | VNum x, VNum y => num_eqb x y
  | VStr x, VStr y => jsstring_eqb x y
  | VBuiltin x, VBuiltin y => jsstring_eqb x y
  | _, _ => false
  end.

(** [a || b] *)
Definition or_else (a b : value) : value := if ToBoolean a then a else b.

(** [isNaN(v)] *)
Definition isNaN (v : value) : bool :=
  match ToNumber v with
  | NaN => true
  | _ => false
  end.

(** The properties every object literal inherits. *)
Definition Object_prototype_methods : list jsstring :=
  map utf8
    [ "__defineGetter__"; "__defineSetter__"; "__lookupGetter__";
      "__lookupSetter__"; "hasOwnProperty"; "isPrototypeOf";
      "propertyIsEnumerable"; "toLocaleString"; "toString"; "valueOf" ]%string.

Definition Object_prototype_get (key : jsstring) : value :=
  if jsstring_eqb key (utf8 "constructor") then VBuiltin (utf8 "Object")
  else if jsstring_eqb key (utf8 "__proto__") then VBuiltin (utf8 "Object.prototype")
  else if bool_decide (key ∈ Object_prototype_methods) then VBuiltin key
  else VUndefined.

Fixpoint own_property (props : list (jsstring * value)) (key : jsstring) : option value :=
  match props with
  | [] => None
  | (k, v) :: rest => if jsstring_eqb k key then Some v else own_property rest key
  end.

(** [literal[key]] for an object literal with the properties [props]:
    an own property, or else what [Object.prototype] holds. *)
Definition literal_get (props : list (jsstring * value)) (key : jsstring) : value :=
  match own_property props key with
  | Some v => v
  | None => Object_prototype_get key
  end.

(** Objects the scripts build and send as JSON. *)
#[warnings="-register-all"]
Inductive json :=
| JVal (v : value)
| JObj (fields : gmap jsstring json).

(** [obj[key] = v] on a plain object, for a scalar [v]: the key
    [__proto__] reaches the inherited setter, which ignores a value
    that is not an object. *)
Definition object_set (key : jsstring) (v : value) (obj : gmap jsstring json)
  : gmap jsstring json :=
  if jsstring_eqb key (utf8 "__proto__") then obj else <[key := JVal v]> obj.

Inductive exception := TypeError | SyntaxError.

(** The text a [textContent] assignment stores. *)
Definition as_textContent (v : value) : jsstring :=
  match v with
  | VUndefined | VNull => []
  | _ => ToString v
  end.

End JSValue.
Export JSValue.

(** ** activity.js: class [ActivityManager] *)

Module ActivityManager.
Import RegExp.

(** [[a-zA-Z0-9_]] *)
Definition hashtag_class (c : code_unit) : bool :=
  in_range 97 122 c || in_range 65 90 c || in_range 48 57 c || (c =? 95).

(** [[a-zA-Z0-9_.]] *)
Definition username_class (c : code_unit) : bool :=
  in_range 97 122 c || in_range 65 90 c || in_range 48 57 c || (c =? 95) || (c =? 46).

Definition validateHashtag (hashtag : jsstring) : bool :=
  let clean := replace (utf8 "#") [] (trim hashtag) in
  test_anchored (Plus (Class hashtag_class)) clean
  && (0 <? length clean)%nat && (length clean <=? 100)%nat.

Definition validateUsername (username : jsstring) : bool :=
  let clean := replace (utf8 "@") [] (trim username) in
  test_anchored (Plus (Class username_class)) clean
  && (0 <? length clean)%nat && (length clean <=? 30)%nat.

(** The [stats] object of the stats reply. *)
Record stats := { likes_today : value; follows_today : value; success_rate : value }.

(** [updateStatsDisplay(stats)], on the text of the elements the page
    has for each [data-stat] name. *)
Definition updateStatsDisplay (s : stats) (dom : gmap jsstring jsstring)
  : gmap jsstring jsstring :=
  let write name text (dom : gmap jsstring jsstring) :=
    match dom !! name with
    | Some _ => <[name := text]> dom
    | None => dom
    end in
  write (utf8 "success_rate") (ToString (success_rate s) ++ utf8 "%")
    (write (utf8 "follows_today") (as_textContent (follows_today s))
       (write (utf8 "likes_today") (as_textContent (likes_today s)) dom)).

End ActivityManager.

(** ** The automation dashboard script *)

Module Automation.

(** *** Data received from the server *)

Module Session.
Record t := { user : value; status : value; success_rate : value }.
End Session.

Module Activity.
Record t := {
  id : value;
  status : value;
  created_at : value;
  session_user : value;
  activity_type : value;
  target : value
}.
End Activity.

Module SessionStats.
Record t := { active : value }.
End SessionStats.

Module ActivityStats.
Record t := { pending : value; completed : value; success_rate : value }.
End ActivityStats.

Module Status.
Record t := {
  automation_active : value;
  session_stats : SessionStats.t;
  activity_stats : ActivityStats.t
}.
End Status.

(** *** The page *)

(** [let automationData = { status: null, sessions: [], activities: [] }] *)
Record automationData_t := {
  status : option Status.t;
  sessions : list Session.t;
  activities : list Activity.t
}.

(** An [<option>] of a select element. *)
Record select_option := { option_value : jsstring; option_text : jsstring }.

(** The [onclick] handler of a button of the activities table, with the
    text interpolated for its argument. *)
Inductive action :=
| ShowActivityDetails (id : jsstring)
| RetryActivity (id : jsstring)
| CancelActivity (id : jsstring).

(** A row of the activities table: the values that fill the holes of
    the row template, in their order.  [row_time] is the time value of
    the [Date] the first cell prints in the tr-TR locale. *)
Record row := {
  row_time : number;
  row_session_user : jsstring;
  row_type_label : jsstring;
  row_target : jsstring;
  row_status_badge : jsstring;
  row_actions : list action
}.

Inductive tbody :=
| NoActivitiesNotice
| Rows (rows : list row).

Inductive event :=
| Fetch (url method : jsstring) (body : option json)
| Notification (message type : jsstring)
| ModalShow (id : jsstring)
| ModalHide (id : jsstring).

(** A form: its named controls with their current values, in document
    order. *)
Abbreviation form := (list (jsstring * jsstring)) (only parsing).

Record page := {
  automationData : automationData_t;
  refreshInterval : option positive;         (* null, or the id [setInterval] gave *)
  text_content : gmap jsstring jsstring;     (* elements with an id: their text *)
  session_selects : list (list select_option); (* each [select[name="session_user"]] *)
  recent_activities_tbody : option tbody;    (* [#recent-activities-table tbody] *)
  activity_form : form;                      (* [#activity-form] *)
  config_form : form;                        (* [#config-form] *)
  intervals : gset positive;                 (* the live interval timers *)
  next_interval : positive;                  (* the id the next timer gets *)
  log : list event                           (* requests and notifications so far *)
}.

Definition set_automationData (d : automationData_t) (p : page) : page :=
  {| automationData := d; refreshInterval := refreshInterval p;
     text_content := text_content p; session_selects := session_selects p;
     recent_activities_tbody := recent_activities_tbody p;
     activity_form := activity_form p; config_form := config_form p;
     intervals := intervals p; next_interval := next_interval p; log := log p |}.

Definition set_refreshInterval (r : option positive) (p : page) : page :=
  {| automationData := automationData p; refreshInterval := r;
     text_content := text_content p; session_selects := session_selects p;
     recent_activities_tbody := recent_activities_tbody p;
     activity_form := activity_form p; config_form := config_form p;
     intervals := intervals p; next_interval := next_interval p; log := log p |}.

Definition set_text_content (m : gmap jsstring jsstring) (p : page) : page :=
  {| automationData := automationData p; refreshInterval := refreshInterval p;
     text_content := m; session_selects := session_selects p;
     recent_activities_tbody := recent_activities_tbody p;
     activity_form := activity_form p; config_form := config_form p;
     intervals := intervals p; next_interval := next_interval p; log := log p |}.

Definition set_session_selects (l : list (list select_option)) (p : page) : page :=
  {| automationData := automationData p; refreshInterval := refreshInterval p;
     text_content := text_content p; session_selects := l;
     recent_activities_tbody := recent_activities_tbody p;
     activity_form := activity_form p; config_form := config_form p;
     intervals := intervals p; next_interval := next_interval p; log := log p |}.

Definition set_recent_activities_tbody (b : option tbody) (p : page) : page :=
  {| automationData := automationData p; refreshInterval := refreshInterval p;
     text_content := text_content p; session_selects := session_selects p;
     recent_activities_tbody := b;
     activity_form := activity_form p; config_form := config_form p;
     intervals := intervals p; next_interval := next_interval p; log := log p |}.

Definition set_config_form (f : form) (p : page) : page :=
  {| automationData := automationData p; refreshInterval := refreshInterval p;
     text_content := text_content p; session_selects := session_selects p;
     recent_activities_tbody := recent_activities_tbody p;
     activity_form := activity_form p; config_form := f;
     intervals := intervals p; next_interval := next_interval p; log := log p |}.

Definition set_intervals (s : gset positive) (n : positive) (p : page) : page :=
  {| automationData := automationData p; refreshInterval := refreshInterval p;
     text_content := text_content p; session_selects := session_selects p;
     recent_activities_tbody := recent_activities_tbody p;
     activity_form := activity_form p; config_form := config_form p;
     intervals := s; next_interval := n; log := log p |}.

Definition emit (e : event) (p : page) : page :=
  {| automationData := automationData p; refreshInterval := refreshInterval p;
     text_content := text_content p; session_selects := session_selects p;
     recent_activities_tbody := recent_activities_tbody p;
     activity_form := activity_form p; config_form := config_form p;
     intervals := intervals p; next_interval := next_interval p;
     log := log p ++ [e] |}.

(** The state of the page when the script has loaded. *)
Definition loaded (text : gmap jsstring jsstring) (selects : list (list select_option))
    (tb : option tbody) (aform cform : form) : page :=
  {| automationData := {| status := None; sessions := []; activities := [] |};
     refreshInterval := None;
     text_content := text; session_selects := selects;
     recent_activities_tbody := tb;
     activity_form := aform; config_form := cform;
     intervals := ∅; next_interval := 1%positive; log := [] |}.

(** *** Browser interface *)

(** [fetch(url)] and [fetch(url, {method: 'POST', ..., body: JSON.stringify(b)})]:
    the request goes out; its reply reaches a [_then] callback later. *)
Definition fetch_get (url : jsstring) : page -> page :=
  emit (Fetch url (utf8 "GET") None).

Definition fetch_post (url : jsstring) (body : option json) : page -> page :=
  emit (Fetch url (utf8 "POST") body).

(** [setInterval(callback, 30000)]: a fresh positive id, now live. *)
Definition setInterval (p : page) : positive * page :=
  let id := next_interval p in
  (id, set_intervals ({[id]} ∪ intervals p) (Pos.succ id) p).

Definition clearInterval (id : positive) (p : page) : page :=
  set_intervals (intervals p ∖ {[id]}) (next_interval p) p.

(** [formData.get(name)]: the value of the first entry of that name,
    or null. *)
Fixpoint FormData_get (name : jsstring) (entries : form) : value :=
  match entries with
  | [] => VNull
  | (k, v) :: rest => if jsstring_eqb k name then VStr v else FormData_get name rest
  end.

(** The text an [input.value] assignment stores (the controls are
    taken to keep the text as given). *)
Definition as_input_value (v : value) : jsstring :=
  match v with
  | VNull => []
  | _ => ToString v
  end.

(** A name that stands for itself inside the quoted string of an
    attribute selector [[name="..."]]. *)
Definition css_plain (name : jsstring) : bool :=
  forallb (fun c => negb (bool_decide (c ∈ [0; 10; 12; 13; 34; 92]))) name.

(** Assigns [v] to the first control named [name]. *)
Fixpoint set_first_named (name v : jsstring) (f : form) : form :=
  match f with
  | [] => []
  | (k, old) :: rest =>
    if jsstring_eqb k name then (k, v) :: rest
    else (k, old) :: set_first_named name v rest
  end.

Definition has_control (name : jsstring) (f : form) : bool :=
  existsb (fun kv => jsstring_eqb (fst kv) name) f.

(** *** API requests *)

Definition loadAutomationStatus : page -> page :=
  fetch_get (utf8 "/srdr-proadmin/api/automation/status").

Definition loadSessions : page -> page :=
  fetch_get (utf8 "/srdr-proadmin/api/automation/sessions").

Definition loadRecentActivities : page -> page :=
  fetch_get (utf8 "/srdr-proadmin/api/automation/activities?limit=10").

Definition loadConfig : page -> page :=
  fetch_get (utf8 "/srdr-proadmin/api/automation/config").

(** *** Helpers *)

(** The toast is recorded by its message and type. *)
Definition showNotification (message type : jsstring) : page -> page :=
  emit (Notification message type).

Definition badge_markup (class label : string) : jsstring :=
  utf8 "<span class=" ++ quot ++ utf8 class ++ quot ++ utf8 ">" ++ utf8 label
    ++ utf8 "</span>".

Definition badges : list (jsstring * value) :=
  [ (utf8 "pending", VStr (badge_markup "badge bg-warning" "Bekleyen"));
    (utf8 "running", VStr (badge_markup "badge bg-info" "Çalışan"));
    (utf8 "completed", VStr (badge_markup "badge bg-success" "Tamamlanan"));
    (utf8 "failed", VStr (badge_markup "badge bg-danger" "Başarısız"));
    (utf8 "cancelled", VStr (badge_markup "badge bg-secondary" "İptal")) ].

Definition unknown_badge : value :=
  VStr (badge_markup "badge bg-light" "Bilinmiyor").

Definition getStatusBadge (status : value) : value :=
  or_else (literal_get badges (ToString status)) unknown_badge.

Definition labels : list (jsstring * value) :=
  [ (utf8 "like", VStr (utf8 "Beğeni"));
    (utf8 "follow", VStr (utf8 "Takip"));
    (utf8 "comment", VStr (utf8 "Yorum"));
    (utf8 "story_view", VStr (utf8 "Story İzle"));
    (utf8 "profile_visit", VStr (utf8 "Profil Ziyaret"));
    (utf8 "explore_browse", VStr (utf8 "Keşfet Gezin"));
    (utf8 "session_keepalive", VStr (utf8 "Keep-Alive")) ].

Definition getActivityTypeLabel (type : value) : value :=
  or_else (literal_get labels (ToString type)) type.

(** *** Display updates *)

Definition updateElementText (elementId : jsstring) (text : value) (p : page) : page :=
  match text_content p !! elementId with
  | Some _ => set_text_content (<[elementId := as_textContent text]> (text_content p)) p
  | None => p
  end.

Definition updateStatsCards (p : page) : page :=
  match status (automationData p) with
  | None => p
  | Some st =>
    let sessionStats := Status.session_stats st in
    let activityStats := Status.activity_stats st in
    let p := updateElementText (utf8 "active-sessions")
               (or_else (SessionStats.active sessionStats) (VNum (Dec 0 0))) p in
    let p := updateElementText (utf8 "pending-activities")
               (or_else (ActivityStats.pending activityStats) (VNum (Dec 0 0))) p in
    let p := updateElementText (utf8 "completed-today")
               (or_else (ActivityStats.completed activityStats) (VNum (Dec 0 0))) p in
    updateElementText (utf8 "success-rate")
      (VStr (ToString (or_else (ActivityStats.success_rate activityStats) (VNum (Dec 0 0)))
               ++ utf8 "%")) p
  end.

Definition is_active (s : Session.t) : bool :=
  strict_eq (Session.status s) (VStr (utf8 "active")).

Definition placeholder_option : select_option :=
  {| option_value := []; option_text := utf8 "Kullanıcı seçiniz..." |}.

Definition session_option (session : Session.t) : select_option :=
  {| option_value := ToString (Session.user session);
     option_text :=
       ToString (Session.user session) ++ utf8 " ("
         ++ ToString (Session.success_rate session) ++ utf8 "% başarı)" |}.

(** The body of the inner [forEach]: one session against one select. *)
Definition append_if_active (options : list select_option) (session : Session.t)
  : list select_option :=
  if is_active session then options ++ [session_option session] else options.

Definition updateSessionSelects (p : page) : page :=
  set_session_selects
    (map (fun _ => fold_left append_if_active (sessions (automationData p))
                     [placeholder_option])
         (session_selects p))
    p.

Definition activity_row (activity : Activity.t) : row :=
  let statusBadge := getStatusBadge (Activity.status activity) in
  {| row_time := num_mul (ToNumber (Activity.created_at activity)) (Dec 1000 0);
     row_session_user := ToString (Activity.session_user activity);
     row_type_label := ToString (getActivityTypeLabel (Activity.activity_type activity));
     row_target := ToString (or_else (Activity.target activity) (VStr (utf8 "-")));
     row_status_badge := ToString statusBadge;
     row_actions :=
       [ShowActivityDetails (ToString (Activity.id activity))]
         ++ (if strict_eq (Activity.status activity) (VStr (utf8 "failed"))
             then [RetryActivity (ToString (Activity.id activity))] else [])
         ++ (if strict_eq (Activity.status activity) (VStr (utf8 "pending"))
             then [CancelActivity (ToString (Activity.id activity))] else []) |}.

Definition updateRecentActivitiesTable (p : page) : page :=
  match recent_activities_tbody p with
  | None => p
  | Some _ =>
    match activities (automationData p) with
    | [] => set_recent_activities_tbody (Some NoActivitiesNotice) p
    | l => set_recent_activities_tbody (Some (Rows (map activity_row (take 10 l)))) p
    end
  end.

(** *** Replies *)

Module Reply.
Record t := { success : value; message : value; error : value }.
End Reply.

Definition loadSessions_then (success : value) (received : list Session.t) (p : page) : page :=
  if ToBoolean success then
    updateSessionSelects
      (set_automationData
         {| status := status (automationData p); sessions := received;
            activities := activities (automationData p) |} p)
  else p.

Definition loadRecentActivities_then (success : value) (received : list Activity.t)
    (p : page) : page :=
  if ToBoolean success then
    updateRecentActivitiesTable
      (set_automationData
         {| status := status (automationData p); sessions := sessions (automationData p);
            activities := received |} p)
  else p.

(** *** Automation control *)

(** [random] is what [Math.random()] returned. *)
Definition scheduleRandomActivity (random : number) (p : page) : page * option exception :=
  let availableUsers := List.filter is_active (sessions (automationData p)) in
  match availableUsers with
  | [] => (showNotification (utf8 "Aktif session bulunamadı") (utf8 "warning") p, None)
  | _ =>
    let index := floor (num_mul random (Dec (Z.of_nat (length availableUsers)) 0)) in
    match array_get availableUsers index with
    | None => (p, Some TypeError)
    | Some randomUser =>
      (fetch_post (utf8 "/srdr-proadmin/api/automation/schedule-random")
         (Some (JObj {[ utf8 "session_user" := JVal (Session.user randomUser) ]})) p,
       None)
    end
  end.

Definition scheduleRandomActivity_then (data : Reply.t) (p : page) : page :=
  if ToBoolean (Reply.success data) then
    loadRecentActivities (showNotification (ToString (Reply.message data)) (utf8 "success") p)
  else
    showNotification
      (utf8 "Rastgele aktivite zamanlanamadı: " ++ ToString (Reply.error data))
      (utf8 "error") p.

(** *** Modals *)

Definition submitActivity (p : page) : page :=
  let formData := activity_form p in
  let activity_type := FormData_get (utf8 "activity_type") formData in
  let session_user := FormData_get (utf8 "session_user") formData in
  let target := or_else (FormData_get (utf8 "target") formData) VNull in
  let delay_seconds :=
    or_else (VNum (parseInt (ToString (FormData_get (utf8 "delay_seconds") formData))))
            (VNum (Dec 0 0)) in
  let count :=
    or_else (VNum (parseInt (ToString (FormData_get (utf8 "count") formData))))
            (VNum (Dec 1 0)) in
  if negb (ToBoolean activity_type) || negb (ToBoolean session_user) then
    showNotification (utf8 "Aktivite türü ve kullanıcı seçmelisiniz") (utf8 "warning") p
  else
    fetch_post (utf8 "/srdr-proadmin/api/automation/schedule-activity")
      (Some (JObj
         (<[utf8 "activity_type" := JVal activity_type]>
          (<[utf8 "session_user" := JVal session_user]>
           (<[utf8 "target" := JVal target]>
            (<[utf8 "delay_seconds" := JVal delay_seconds]>
             {[ utf8 "metadata" := JObj {[ utf8 "count" := JVal count ]} ]})))))) p.

Definition submitActivity_then (data : Reply.t) (p : page) : page :=
  if ToBoolean (Reply.success data) then
    loadRecentActivities
      (emit (ModalHide (utf8 "activityModal"))
         (showNotification (ToString (Reply.message data)) (utf8 "success") p))
  else
    showNotification (utf8 "Aktivite zamanlanamadı: " ++ ToString (Reply.error data))
      (utf8 "error") p.

Definition showConfigModal : page -> page := loadConfig.

(** The body of [Object.keys(config).forEach]: one key of the config.
    A name with a quote or a line break makes the selector malformed,
    and [querySelector] throws; a name with a backslash or NUL, whose
    selector denotes another name, is refused alike. *)
Definition fill_config_field (key : jsstring) (v : value) (p : page)
  : page * option exception :=
  if css_plain key then
    if has_control key (config_form p) then
      let value :=
        if includes (utf8 "probability") key
        then VNum (num_mul (ToNumber v) (Dec 100 0))
        else v in
      (set_config_form (set_first_named key (as_input_value value) (config_form p)) p, None)
    else (p, None)
  else (p, Some SyntaxError).

Fixpoint fill_config_fields (config : list (jsstring * value)) (p : page)
  : page * option exception :=
  match config with
  | [] => (p, None)
  | (key, v) :: rest =>
    match fill_config_field key v p with
    | (p', None) => fill_config_fields rest p'
    | thrown => thrown
    end
  end.

(** The callback of [loadConfig().then]: [config] lists the properties
    of the received object in the order of [Object.keys]. *)
Definition showConfigModal_then (config : list (jsstring * value)) (p : page)
  : page * option exception :=
  match fill_config_fields config p with
  | (p', None) => (emit (ModalShow (utf8 "configModal")) p', None)
  | thrown => thrown
  end.

Definition showConfigModal_catch (message : jsstring) : page -> page :=
  showNotification (utf8 "Config yüklenemedi: " ++ message) (utf8 "error").

Section SaveConfig.
Variable inexact_quotient : number -> number -> number.

(** The body of the loop over [formData.entries()]. *)
Definition config_entry (configData : gmap jsstring json) (entry : jsstring * jsstring)
  : gmap jsstring json :=
  let '(key, value) := entry in
  if includes (utf8 "probability") key then
    object_set key (VNum (num_div inexact_quotient (parseFloat value) (Dec 100 0))) configData
  else
    object_set key
      (if isNaN (VStr value) then VStr value else VNum (StringToNumber value)) configData.

Definition collect_config (f : form) : gmap jsstring json :=
  fold_left config_entry f ∅.

Definition saveConfig (p : page) : page :=
  fetch_post (utf8 "/srdr-proadmin/api/automation/config")
    (Some (JObj (collect_config (config_form p)))) p.
End SaveConfig.

Definition saveConfig_then (data : Reply.t) (p : page) : page :=
  if ToBoolean (Reply.success data) then
    emit (ModalHide (utf8 "configModal"))
      (showNotification (ToString (Reply.message data)) (utf8 "success") p)
  else
    showNotification (utf8 "Config kaydedilemedi: " ++ ToString (Reply.error data))
      (utf8 "error") p.

(** *** Activity actions *)

Definition retryActivity (activityId : value) : page -> page :=
  fetch_post (utf8 "/srdr-proadmin/api/automation/retry-activity")
    (Some (JObj {[ utf8 "activity_id" := JVal activityId ]})).

Definition retryActivity_then (data : Reply.t) (p : page) : page :=
  if ToBoolean (Reply.success data) then
    loadRecentActivities
      (showNotification (utf8 "Aktivite yeniden deneme için zamanlandı") (utf8 "success") p)
  else
    showNotification
      (utf8 "Aktivite yeniden denemeye alınamadı: " ++ ToString (Reply.message data))
      (utf8 "error") p.

(** [confirmed] is the answer the [confirm] dialog returned. *)
Definition cancelActivity (confirmed : bool) (activityId : value) (p : page) : page :=
  if negb confirmed then p
  else
    fetch_post (utf8 "/srdr-proadmin/api/automation/cancel-activity")
      (Some (JObj {[ utf8 "activity_id" := JVal activityId ]})) p.

Definition cancelActivity_then (data : Reply.t) (p : page) : page :=
  if ToBoolean (Reply.success data) then
    loadRecentActivities (showNotification (utf8 "Aktivite iptal edildi") (utf8 "success") p)
  else
    showNotification (utf8 "Aktivite iptal edilemedi: " ++ ToString (Reply.message data))
      (utf8 "error") p.

(** *** Auto refresh *)

Definition stopAutoRefresh (p : page) : page :=
  match refreshInterval p with
  | Some id => set_refreshInterval None (clearInterval id p)
  | None => p
  end.

Definition startAutoRefresh (p : page) : page :=
  let p := stopAutoRefresh p in
  let '(id, p) := setInterval p in
  set_refreshInterval (Some id) p.

(** What a live timer runs every 30 seconds. *)
Definition refresh_tick (p : page) : page :=
  loadRecentActivities (loadAutomationStatus p).

(** The [beforeunload] handler. *)
Definition beforeunload : page -> page := stopAutoRefresh.

(** The calls that touch the timer, and a run of them. *)
Inductive refresh_call :=
| StartAutoRefresh
| StopAutoRefresh
| BeforeUnload
| Tick (id : positive).

Definition refresh_step (p : page) (c : refresh_call) : page :=
  match c with
  | StartAutoRefresh => startAutoRefresh p
  | StopAutoRefresh => stopAutoRefresh p
  | BeforeUnload => beforeunload p
  | Tick id => if bool_decide (id ∈ intervals p) then refresh_tick p else p
  end.

Definition refresh_run (calls : list refresh_call) (p : page) : page :=
  fold_left refresh_step calls p.

End Automation.

(** ** The automation dashboard script: the remaining controls *)

Module AutomationControl.
Import Automation.

Definition startAutomation : page -> page :=
  fetch_post (utf8 "/srdr-proadmin/api/automation/start-scheduler") None.

Definition startAutomation_then (data : Reply.t) (p : page) : page :=
  if ToBoolean (Reply.success data) then
    loadAutomationStatus (showNotification (utf8 "Otomasyon başlatıldı") (utf8 "success") p)
  else
    showNotification (utf8 "Otomasyon başlatılamadı: " ++ ToString (Reply.error data))
      (utf8 "error") p.

(** [confirmed] is the answer the [confirm] dialog returned. *)
Definition stopAutomation (confirmed : bool) (p : page) : page :=
  if negb confirmed then p
  else fetch_post (utf8 "/srdr-proadmin/api/automation/stop-scheduler") None p.

Definition stopAutomation_then (data : Reply.t) (p : page) : page :=
  if ToBoolean (Reply.success data) then
    loadAutomationStatus (showNotification (utf8 "Otomasyon durduruldu") (utf8 "warning") p)
  else
    showNotification (utf8 "Otomasyon durdurulamadı: " ++ ToString (Reply.error data))
      (utf8 "error") p.

Definition scheduleKeepAliveAll : page -> page :=
  fetch_post (utf8 "/srdr-proadmin/api/automation/schedule-keepalive") (Some (JObj ∅)).

Definition scheduleKeepAliveAll_then (data : Reply.t) (p : page) : page :=
  if ToBoolean (Reply.success data) then
    loadRecentActivities (showNotification (ToString (Reply.message data)) (utf8 "success") p)
  else
    showNotification (utf8 "Keep-alive zamanlanamadı: " ++ ToString (Reply.error data))
      (utf8 "error") p.

(** The [.catch] handler the actions share: [message] is
    [error.message]. *)
Definition action_catch (message : value) : page -> page :=
  showNotification (utf8 "Hata: " ++ ToString message) (utf8 "error").

Definition initializeAutomation (p : page) : page :=
  loadRecentActivities (loadSessions (loadAutomationStatus p)).

(** The [DOMContentLoaded] handler.  [setupEventListeners] only binds
    the four buttons to their functions, which leaves the page state
    as it is. *)
Definition DOMContentLoaded (p : page) : page :=
  startAutoRefresh (initializeAutomation p).

(** The entry points of the script: what a click, a timer, a reply or
    the page itself can run. *)
Inductive script_call :=
| PageLoaded
| Refresh (c : refresh_call)
| UpdateStatsCards
| SessionsReply (success : value) (received : list Session.t)
| ActivitiesReply (success : value) (received : list Activity.t)
| StartAutomation
| StartAutomationReply (data : Reply.t)
| StopAutomation (confirmed : bool)
| StopAutomationReply (data : Reply.t)
| ScheduleKeepAliveAll
| ScheduleKeepAliveAllReply (data : Reply.t)
| ScheduleRandomActivity (random : number)
| ScheduleRandomActivityReply (data : Reply.t)
| SubmitActivity
| SubmitActivityReply (data : Reply.t)
| ShowConfigModal
| ConfigReply (config : list (jsstring * value)) (error_message : jsstring)
| ConfigFailed (error_message : jsstring)
| SaveConfig
| SaveConfigReply (data : Reply.t)
| RetryActivityCall (activityId : value)
| RetryActivityReply (data : Reply.t)
| CancelActivityCall (confirmed : bool) (activityId : value)
| CancelActivityReply (data : Reply.t)
| RequestFailed (error_message : value).

Section Script.
Variable inexact_quotient : number -> number -> number.

Definition script_step (p : page) (c : script_call) : page :=
  match c with
  | PageLoaded => DOMContentLoaded p
  | Refresh r => refresh_step p r
  | UpdateStatsCards => updateStatsCards p
  | SessionsReply success received => loadSessions_then success received p
  | ActivitiesReply success received => loadRecentActivities_then success received p
  | StartAutomation => startAutomation p
  | StartAutomationReply data => startAutomation_then data p
  | StopAutomation confirmed => stopAutomation confirmed p
  | StopAutomationReply data => stopAutomation_then data p
  | ScheduleKeepAliveAll => scheduleKeepAliveAll p
  | ScheduleKeepAliveAllReply data => scheduleKeepAliveAll_then data p
  | ScheduleRandomActivity random => fst (scheduleRandomActivity random p)
  | ScheduleRandomActivityReply data => scheduleRandomActivity_then data p
  | SubmitActivity => submitActivity p
  | SubmitActivityReply data => submitActivity_then data p
  | ShowConfigModal => showConfigModal p
  | ConfigReply config error_message =>
    match showConfigModal_then config p with
    | (p', None) => p'
    | (p', Some _) => showConfigModal_catch error_message p'
    end
  | ConfigFailed error_message => showConfigModal_catch error_message p
  | SaveConfig => saveConfig inexact_quotient p
  | SaveConfigReply data => saveConfig_then data p
  | RetryActivityCall activityId => retryActivity activityId p
  | RetryActivityReply data => retryActivity_then data p
  | CancelActivityCall confirmed activityId => cancelActivity confirmed activityId p
  | CancelActivityReply data => cancelActivity_then data p
  | RequestFailed error_message => action_catch error_message p
  end.

Definition script_run (calls : list script_call) (p : page) : page :=
  fold_left script_step calls p.
End Script.

(** A request to the automation API: a GET without a body, or a
    POST. *)
Definition api_request (e : event) : bool :=
  match e with
  | Fetch url method body =>
    starts_with (utf8 "/srdr-proadmin/api/automation/") url
    && (jsstring_eqb method (utf8 "POST")
        || jsstring_eqb method (utf8 "GET") && bool_decide (body = None))
  | _ => true
  end.

End AutomationControl.

(** ** activity.js: alerts, loading state and [debounce] *)

Module ActivityManagerUI.

Definition icons : list (jsstring * value) :=
  [ (utf8 "success", VStr (utf8 "check-circle"));
    (utf8 "danger", VStr (utf8 "exclamation-circle"));
    (utf8 "warning", VStr (utf8 "exclamation-triangle"));
    (utf8 "info", VStr (utf8 "info-circle")) ].

Definition getIconForType (type : value) : value :=
  or_else (literal_get icons (ToString type)) (VStr (utf8 "info-circle")).

(** A floating alert: its class, the class of its icon and the message
    its markup holds. *)
Record alert := {
  alert_className : jsstring;
  alert_icon : jsstring;
  alert_message : jsstring
}.

(** The part of the document the alerts use: the elements whose id is
    [floating-alert], in document order, and the pending timeouts with
    their delays. *)
Record alerts_view := {
  floating_alerts : list alert;
  timeouts : gmap positive number;
  next_timeout : positive
}.

(** [getElementById] finds the first element of that id. *)
Definition hideAlert (d : alerts_view) : alerts_view :=
  match floating_alerts d with
  | [] => d
  | _ :: rest =>
    {| floating_alerts := rest; timeouts := timeouts d; next_timeout := next_timeout d |}
  end.

(** A parameter with a default: the default stands in for
    [undefined]. *)
Definition with_default (default v : value) : value :=
  match v with
  | VUndefined => default
  | _ => v
  end.

(** [showAlert(message, type = 'info', duration = 5000)] *)
Definition showAlert (message type duration : value) (d : alerts_view) : alerts_view :=
  let type := with_default (VStr (utf8 "info")) type in
  let duration := with_default (VNum (Dec 5000 0)) duration in
  let d := hideAlert d in
  let alertDiv :=
    {| alert_className :=
         utf8 "alert alert-" ++ ToString type
           ++ utf8 " alert-dismissible fade show alert-floating";
       alert_icon := utf8 "bi bi-" ++ ToString (getIconForType type) ++ utf8 " me-2";
       alert_message := ToString message |} in
  {| floating_alerts := floating_alerts d ++ [alertDiv];
     timeouts := <[next_timeout d := ToNumber duration]> (timeouts d);
     next_timeout := Pos.succ (next_timeout d) |}.

(** A pending timeout expires and runs its callback, [hideAlert]. *)
Definition alert_timeout (id : positive) (d : alerts_view) : alerts_view :=
  match timeouts d !! id with
  | Some _ =>
    hideAlert {| floating_alerts := floating_alerts d;
                 timeouts := delete id (timeouts d);
                 next_timeout := next_timeout d |}
  | None => d
  end.

Inductive alert_call :=
| ShowAlert (message type duration : value)
| HideAlert
| AlertTimeout (id : positive).

Definition alert_step (d : alerts_view) (c : alert_call) : alerts_view :=
  match c with
  | ShowAlert message type duration => showAlert message type duration d
  | HideAlert => hideAlert d
  | AlertTimeout id => alert_timeout id d
  end.

(** *** [setLoading] *)

(** The content of an element: text and child elements. *)
#[warnings="-register-all"]
Inductive node :=
| Text (s : jsstring)
| Element (tag className : jsstring) (children : list node).

Fixpoint node_text (n : node) : jsstring :=
  match n with
  | Text s => s
  | Element _ _ children => concat (map node_text children)
  end.

(** [element.textContent] *)
Definition textContent (content : list node) : jsstring :=
  concat (map node_text content).

(** [element.textContent = s] *)
Definition set_textContent (s : jsstring) : list node :=
  match s with
  | [] => []
  | _ => [Text s]
  end.

Record button := {
  disabled : bool;
  content : list node;
  originalText : value        (* [dataset.originalText]: a string, or undefined *)
}.

(** [setLoading(element, loading = true)] *)
Definition setLoading (element : button) (loading : value) : button :=
  if ToBoolean (with_default (VBool true) loading) then
    {| disabled := true;
       originalText := VStr (textContent (content element));
       content := [ Element (utf8 "i") (utf8 "bi bi-hourglass-split") [];
                    Text (utf8 " İşlem yapılıyor...") ] |}
  else
    {| disabled := false;
       originalText := originalText element;
       content := set_textContent
                    (ToString (or_else (originalText element) (VStr (utf8 "İşlem Yap")))) |}.

(** *** [debounce] *)

(** The closure [debounce(func, wait)] returns, with the timers it has
    set: [timeout] is its variable, [pending] the live timers with the
    arguments their [later] holds, [calls] the calls of [func] so far. *)
Record debounced := {
  timeout : option positive;
  pending : gmap positive (list value);
  next_timer : positive;
  calls : list (list value)
}.

Definition debounce : debounced :=
  {| timeout := None; pending := ∅; next_timer := 1%positive; calls := [] |}.

(** [clearTimeout(timeout)] *)
Definition clear_timeout (t : option positive) (m : gmap positive (list value))
  : gmap positive (list value) :=
  match t with
  | Some id => delete id m
  | None => m
  end.

(** [executedFunction(...args)] *)
Definition executedFunction (args : list value) (d : debounced) : debounced :=
  let id := next_timer d in
  {| timeout := Some id;
     pending := <[id := args]> (clear_timeout (timeout d) (pending d));
     next_timer := Pos.succ id;
     calls := calls d |}.

(** The timer [id] expires and runs its [later]. *)
Definition timer_expires (id : positive) (d : debounced) : debounced :=
  match pending d !! id with
  | Some args =>
    {| timeout := timeout d;
       pending := clear_timeout (timeout d) (delete id (pending d));
       next_timer := next_timer d;
       calls := calls d ++ [args] |}
  | None => d
  end.

Inductive debounce_event :=
| Invoke (args : list value)
| Expire (id : positive).

Definition debounce_step (d : debounced) (e : debounce_event) : debounced :=
  match e with
  | Invoke args => executedFunction args d
  | Expire id => timer_expires id d
  end.

End ActivityManagerUI.

(** ** The properties, in the words of the specification *)

Module Spec.

(** [s] without its first occurrence of the code unit [c]. *)
Fixpoint remove_first (c : code_unit) (s : jsstring) : jsstring :=
  match s with
  | [] => []
  | x :: t => if x =? c then t else x :: remove_first c t
  end.

Definition ascii_letter (c : code_unit) : Prop :=
  (65 <= c <= 90) \/ (97 <= c <= 122).

Definition ascii_digit (c : code_unit) : Prop := 48 <= c <= 57.

(** An ASCII letter, a digit, an underscore or a dot. *)
Definition username_char (c : code_unit) : Prop :=
  ascii_letter c \/ ascii_digit c \/ c = 95 \/ c = 46.

(** The user names the validation is meant to accept: trimmed and
    without the first [@], non-empty, at most 30 long, and made of
    [username_char]s. *)
Definition acceptable_username (input : jsstring) : Prop :=
  let clean := remove_first 64 (trim input) in
  clean <> [] /\ (length clean <= 30)%nat /\ Forall username_char clean.

(** The statuses of the specification's enum. *)
Definition activity_statuses : list jsstring :=
  map utf8 ["pending"; "running"; "completed"; "failed"; "cancelled"]%string.

(** A form field the user left out or left empty. *)
Definition absent_or_empty (v : value) : Prop := v = VNull \/ v = VStr [].

(** The request [submitActivity] sends for the given choices. *)
Definition schedule_activity_request (activity_type session_user target delay_seconds
    count : value) : Automation.event :=
  Automation.Fetch (utf8 "/srdr-proadmin/api/automation/schedule-activity") (utf8 "POST")
    (Some (JObj
       (<[utf8 "activity_type" := JVal activity_type]>
        (<[utf8 "session_user" := JVal session_user]>
         (<[utf8 "target" := JVal target]>
          (<[utf8 "delay_seconds" := JVal delay_seconds]>
           {[ utf8 "metadata" := JObj {[ utf8 "count" := JVal count ]} ]})))))).

(** The interval timers that are live are exactly the one
    [refreshInterval] names, if it names one. *)
Definition timer_owned (p : Automation.page) : Prop :=
  Automation.intervals p
  = match Automation.refreshInterval p with
    | Some id => {[id]}
    | None => ∅
    end.

End Spec.

(** ** Sample data *)

Module Examples.
Import Automation.

Definition alice : Session.t :=
  {| Session.user := VStr (utf8 "alice"); Session.status := VStr (utf8 "active");
     Session.success_rate := VNum (Dec 855 (-1)) |}.

Definition bob : Session.t :=
  {| Session.user := VStr (utf8 "bob"); Session.status := VStr (utf8 "blocked");
     Session.success_rate := VUndefined |}.

Definition like_17 : Activity.t :=
  {| Activity.id := VStr (utf8 "17"); Activity.status := VStr (utf8 "pending");
     Activity.created_at := VNum (Dec 1700000000 0);
     Activity.session_user := VStr (utf8 "alice");
     Activity.activity_type := VStr (utf8 "like"); Activity.target := VNull |}.

Definition follow_18 : Activity.t :=
  {| Activity.id := VStr (utf8 "18"); Activity.status := VStr (utf8 "failed");
     Activity.created_at := VNum (Dec 1700000100 0);
     Activity.session_user := VStr (utf8 "alice");
     Activity.activity_type := VStr (utf8 "follow");
     Activity.target := VStr (utf8 "carol") |}.

(** A status reply whose activity stats carry no success rate. *)
Definition no_rate : Status.t :=
  {| Status.automation_active := VBool true;
     Status.session_stats := {| SessionStats.active := VNum (Dec 1 0) |};
     Status.activity_stats :=
       {| ActivityStats.pending := VNum (Dec 1 0);
          ActivityStats.completed := VUndefined;
          ActivityStats.success_rate := VUndefined |} |}.

Definition dashboard_text : gmap (list N) (list N) :=
  <[utf8 "active-sessions" := []]>
    (<[utf8 "pending-activities" := []]>
       (<[utf8 "completed-today" := []]> {[ utf8 "success-rate" := [] ]})).

(** The activity form with a type and a user chosen and the rest left
    empty. *)
Definition like_form : list (list N * list N) :=
  [ (utf8 "activity_type", utf8 "like"); (utf8 "session_user", utf8 "alice");
    (utf8 "target", []); (utf8 "delay_seconds", []); (utf8 "count", []) ].

Definition empty_config_form : list (list N * list N) :=
  [ (utf8 "like_probability", []); (utf8 "daily_likes_limit", []) ].

Definition fresh : page :=
  loaded dashboard_text [[]; []] (Some NoActivitiesNotice) like_form empty_config_form.

Definition with_data (st : option Status.t) (ss : list Session.t) (acts : list Activity.t)
    (p : page) : page :=
  set_automationData {| status := st; sessions := ss; activities := acts |} p.

(** Only a blocked session is known. *)
Definition blocked_only : page := with_data None [bob] [] fresh.

Definition busy : page := with_data (Some no_rate) [bob; alice] [like_17; follow_18] fresh.

Definition config : list (list N * value) :=
  [ (utf8 "like_probability", VNum (Dec 7 (-1)));
    (utf8 "daily_likes_limit", VNum (Dec 200 0)) ].

End Examples.

(** ** Further sample data and notions for the properties below *)

Module More.
Import Automation AutomationControl ActivityManagerUI.

(** The hashtags the validation is meant to accept: trimmed and
    without the first [#], non-empty, at most 100 long, and made of
    ASCII letters, digits and underscores. *)
Definition hashtag_char (c : code_unit) : Prop :=
  Spec.ascii_letter c \/ Spec.ascii_digit c \/ c = 95.

Definition acceptable_hashtag (input : jsstring) : Prop :=
  let clean := Spec.remove_first 35 (trim input) in
  clean <> [] /\ (length clean <= 100)%nat /\ Forall hashtag_char clean.

(** The ids of the four cards [updateStatsCards] writes. *)
Definition stats_cards : list jsstring :=
  map utf8 ["active-sessions"; "pending-activities"; "completed-today";
            "success-rate"]%string.

(** The callbacks that receive the reply to an action. *)
Definition reply_callbacks : list (Reply.t -> page -> page) :=
  [ startAutomation_then; stopAutomation_then; scheduleKeepAliveAll_then;
    scheduleRandomActivity_then; submitActivity_then; saveConfig_then;
    retryActivity_then; cancelActivity_then ].

(** A reply that reports a failure and carries only an [error]. *)
Definition failure_without_message : Reply.t :=
  {| Reply.success := VBool false; Reply.message := VUndefined;
     Reply.error := VStr (utf8 "not found") |}.

Definition no_alert : alerts_view :=
  {| floating_alerts := []; timeouts := ∅; next_timeout := 1%positive |}.

Definition save_button : button :=
  {| disabled := false; content := [Text (utf8 "Kaydet")]; originalText := VUndefined |}.

End More.

(** * Facts *)

(** Settles a decidable closed proposition by evaluating its decision. *)
Ltac decide_closed P := apply (bool_decide_eq_true_1 P); vm_compute; reflexivity.

(** ** Strings *)

Section StringFacts.

Lemma starts_with_app (p s : jsstring) : starts_with p (p ++ s) = true.
Proof.
  induction p as [|a p IH]; simpl; [reflexivity|].
  rewrite N.eqb_refl. exact IH.
Qed.

Lemma starts_with_prefix (p s : jsstring) :
  starts_with p s = true <-> exists r, s = p ++ r.
Proof.
  revert s. induction p as [|a p IH]; intros s; simpl.
  - split; [exists s; reflexivity | reflexivity].
  - destruct s as [|b s]; simpl.
    + split; [discriminate | intros [r Hr]; discriminate].
    + rewrite andb_true_iff, N.eqb_eq, IH. split.
      * intros [-> [r ->]]. exists r. reflexivity.
      * intros [r Hr]. injection Hr as -> ->. split; [reflexivity | exists r; reflexivity].
Qed.

Lemma take_drop_while (p : code_unit -> bool) (s : jsstring) :
  take_while p s ++ drop_while p s = s.
Proof.
  induction s as [|c t IH]; simpl; [reflexivity|].
  destruct (p c); simpl; [f_equal; exact IH | reflexivity].
Qed.

Lemma take_while_all (p : code_unit -> bool) (s : jsstring) :
  forallb p (take_while p s) = true.
Proof.
  induction s as [|c t IH]; simpl; [reflexivity|].
  destruct (p c) eqn:E; simpl; [rewrite E; exact IH | reflexivity].
Qed.

Lemma drop_while_head (p : code_unit -> bool) (s : jsstring) c t :
  drop_while p s = c :: t -> p c = false.
Proof.
  induction s as [|x s IH]; simpl; [discriminate|].
  destruct (p x) eqn:E; [exact IH|].
  intros H. injection H as -> _. exact E.
Qed.


(** Replacing the one-unit pattern [[c]] by nothing removes the first
    [c]. *)
Lemma replace_single (c : code_unit) (s : jsstring) :
  replace [c] [] s = Spec.remove_first c s.
Proof.
  induction s as [|x t IH]; [reflexivity|].
  cbn [replace starts_with Spec.remove_first length].
  rewrite (N.eqb_sym c x). destruct (x =? c); simpl.
  - destruct t; reflexivity.
  - f_equal. exact IH.
Qed.

(** [trim] splits its argument into leading white space, the result
    and trailing white space; the result neither starts nor ends with
    white space. *)
Lemma trim_split (s : jsstring) :
  exists lead trail,
    s = lead ++ trim s ++ trail
    /\ forallb isWhiteSpace lead = true /\ forallb isWhiteSpace trail = true
    /\ (forall c t, trim s = c :: t -> isWhiteSpace c = false)
    /\ (forall c t, trim s = t ++ [c] -> isWhiteSpace c = false).
Proof.
  unfold trim, trimEnd, trimStart.
  set (m := drop_while isWhiteSpace s).
  exists (take_while isWhiteSpace s), (rev (take_while isWhiteSpace (rev m))).
  assert (Hm : rev (drop_while isWhiteSpace (rev m))
               ++ rev (take_while isWhiteSpace (rev m)) = m).
  { rewrite <- rev_app_distr, take_drop_while. apply rev_involutive. }
  repeat split.
  - rewrite Hm. symmetry. apply take_drop_while.
  - apply take_while_all.
  - rewrite forallb_forall. intros x Hx. apply in_rev in Hx.
    pose proof (take_while_all isWhiteSpace (rev m)) as H.
    rewrite forallb_forall in H. apply H, Hx.
  - intros c t Ht. rewrite Ht in Hm. symmetry in Hm.
    apply (drop_while_head isWhiteSpace s c _ Hm).
  - intros c t Ht.
    apply (f_equal (@rev _)) in Ht. rewrite rev_involutive, rev_app_distr in Ht.
    simpl in Ht. apply (drop_while_head _ _ _ _ Ht).
Qed.

End StringFacts.

(** ** Regular expressions *)

Section RegExpFacts.
Import RegExp.

Lemma matches_Void s : matches Void s = false.
Proof. induction s; simpl; auto. Qed.

Lemma matches_Alt r1 r2 s : matches (Alt r1 r2) s = matches r1 s || matches r2 s.
Proof. revert r1 r2. induction s as [|c t IH]; intros; simpl; auto. Qed.

Lemma matches_Seq_Void r s : matches (Seq Void r) s = false.
Proof. induction s; simpl; auto. Qed.

Lemma matches_Seq_Eps r s : matches (Seq Eps r) s = matches r s.
Proof.
  destruct s as [|c t]; simpl; [reflexivity|].
  rewrite matches_Alt, matches_Seq_Void. reflexivity.
Qed.

Lemma matches_Star_Class p s : matches (Star (Class p)) s = forallb p s.
Proof.
  induction s as [|c t IH]; simpl; [reflexivity|].
  destruct (p c); simpl.
  - rewrite matches_Seq_Eps. exact IH.
  - apply matches_Seq_Void.
Qed.

(** [/^[class]+$/] accepts the non-empty strings over the class. *)
Lemma test_Plus_Class p s :
  test_anchored (Plus (Class p)) s = negb (bool_decide (s = [])) && forallb p s.
Proof.
  unfold test_anchored, Plus.
  destruct s as [|c t]; simpl; [reflexivity|].
  destruct (p c); simpl.
  - rewrite matches_Seq_Eps. apply matches_Star_Class.
  - apply matches_Seq_Void.
Qed.

End RegExpFacts.

(** ** activity.js *)

Section ActivityManagerFacts.
Import ActivityManager.

Lemma username_class_char c : username_class c = true <-> Spec.username_char c.
Proof.
  unfold username_class, RegExp.in_range, Spec.username_char, Spec.ascii_letter,
    Spec.ascii_digit.
  rewrite !orb_true_iff, !andb_true_iff, !N.leb_le, !N.eqb_eq. lia.
Qed.

Lemma forallb_username_class s :
  forallb username_class s = true <-> Forall Spec.username_char s.
Proof.
  rewrite forallb_forall, List.Forall_forall.
  split; intros H c Hc; apply username_class_char, H, Hc.
Qed.

(** C10: [validateUsername] returns true exactly on the strings that,
    trimmed and without their first [@], are non-empty, at most 30
    code units long and made of ASCII letters, digits, underscores and
    dots; on every other string it returns false.  It is a total
    function of its string argument. *)
Theorem validateUsername_accepts_exactly (username : jsstring) :
  (validateUsername username = true <-> Spec.acceptable_username username)
  /\ (validateUsername username = false <-> ~ Spec.acceptable_username username).
Proof.
  assert (H : validateUsername username = true <-> Spec.acceptable_username username).
  { unfold validateUsername, Spec.acceptable_username.
    change (utf8 "@") with [64]. rewrite replace_single, test_Plus_Class.
    set (clean := Spec.remove_first 64 (trim username)).
    rewrite !andb_true_iff, negb_true_iff, bool_decide_eq_false,
      forallb_username_class, Nat.ltb_lt, Nat.leb_le.
    split.
    - intros [[[Hne Hall] _] Hlen]. auto.
    - intros (Hne & Hlen & Hall). repeat split; auto.
      destruct clean; [congruence | simpl; lia]. }
  split; [exact H|].
  rewrite <- H. destruct (validateUsername username); split; congruence.
Qed.

Example validateUsername_handle :
  validateUsername (utf8 "  @user.name_1 ") = true.
Proof. reflexivity. Qed.

Example validateUsername_second_at :
  validateUsername (utf8 "@@user") = false.
Proof. reflexivity. Qed.

Example validateUsername_inner_space :
  validateUsername (utf8 "@ user") = false.
Proof. reflexivity. Qed.

Example validateUsername_31 :
  validateUsername (utf8 "abcdefghijklmnopqrstuvwxyz01234") = false
  /\ validateUsername (utf8 "abcdefghijklmnopqrstuvwxyz0123") = true.
Proof. split; reflexivity. Qed.

(** [updateStatsDisplay] has no fallback for a missing rate: a zero rate
    reads [0%], a reply without the rate reads [undefined%]. *)
Lemma updateStatsDisplay_success_rate (s : stats) (dom : gmap jsstring jsstring) :
  is_Some (dom !! utf8 "success_rate") ->
  updateStatsDisplay s dom !! utf8 "success_rate"
  = Some (ToString (success_rate s) ++ utf8 "%").
Proof.
  intros [old Hold]. unfold updateStatsDisplay.
  set (d2 := match dom !! utf8 "likes_today" with Some _ => _ | None => _ end).
  set (d3 := match d2 !! utf8 "follows_today" with Some _ => _ | None => _ end).
  assert (H2 : is_Some (d3 !! utf8 "success_rate")).
  { subst d3 d2.
    repeat match goal with
           | |- context [match ?m !! ?k with Some _ => _ | None => _ end] =>
             destruct (m !! k)
           end;
      rewrite ?lookup_insert_ne by (vm_compute; congruence); eauto. }
  destruct H2 as [x ->]. apply lookup_insert_eq.
Qed.

Example updateStatsDisplay_missing_rate :
  updateStatsDisplay
    {| likes_today := VNum (Dec 3 0); follows_today := VNum (Dec 1 0);
       success_rate := VUndefined |}
    {[ utf8 "success_rate" := [] ]} !! utf8 "success_rate"
  = Some (utf8 "undefined%").
Proof. vm_compute. reflexivity. Qed.

End ActivityManagerFacts.

(** ** The automation dashboard script *)

Section AutomationFacts.
Import Automation.

Lemma jsstring_eqb_eq (a b : jsstring) : jsstring_eqb a b = true <-> a = b.
Proof. unfold jsstring_eqb. apply bool_decide_eq_true. Qed.

Lemma jsstring_eqb_refl (a : jsstring) : jsstring_eqb a a = true.
Proof. apply jsstring_eqb_eq. reflexivity. Qed.

Lemma jsstring_eqb_neq (a b : jsstring) : jsstring_eqb a b = false <-> a <> b.
Proof. unfold jsstring_eqb. apply bool_decide_eq_false. Qed.

Lemma strict_eq_VStr (v : value) (s : jsstring) :
  strict_eq v (VStr s) = true <-> v = VStr s.
Proof.
  destruct v; simpl; try (split; [discriminate | congruence]).
  rewrite jsstring_eqb_eq. split; congruence.
Qed.

Lemma own_property_None props key :
  key ∉ map fst props -> own_property props key = None.
Proof.
  induction props as [|[k v] rest IH]; simpl; [reflexivity|].
  intros Hk. apply not_elem_of_cons in Hk as [Hne Hk].
  destruct (jsstring_eqb k key) eqn:E.
  - apply jsstring_eqb_eq in E. congruence.
  - apply IH, Hk.
Qed.

(** *** Status badges *)

(** Each status of the enum has its badge, the five are distinct, and
    none of them is the fallback. *)
Lemma getStatusBadge_statuses :
  map (fun s => getStatusBadge (VStr s)) Spec.activity_statuses = map snd badges
  /\ NoDup (map snd badges)
  /\ (unknown_badge ∉ map snd badges).
Proof.
  split; [reflexivity|]. split.
  - decide_closed (NoDup (map snd badges)).
  - decide_closed (unknown_badge ∉ map snd badges).
Qed.

(** X20: a key that is neither a status of the enum nor a member of
    [Object.prototype] gets the fallback badge. *)
Lemma getStatusBadge_fallback (status : value) :
  ToString status ∉ Spec.activity_statuses ->
  Object_prototype_get (ToString status) = VUndefined ->
  getStatusBadge status = unknown_badge.
Proof.
  intros Hkey Hproto. unfold getStatusBadge, literal_get.
  rewrite own_property_None by (exact Hkey). rewrite Hproto. reflexivity.
Qed.

(** The result is never undefined (nor any other falsy value). *)
Lemma getStatusBadge_truthy (status : value) :
  ToBoolean (getStatusBadge status) = true.
Proof.
  unfold getStatusBadge, or_else.
  destruct (ToBoolean (literal_get badges (ToString status))) eqn:E; [exact E | reflexivity].
Qed.

(** C8: at the status [constructor], a string outside the enum, the
    lookup [badges[status]] finds the member [Object.prototype] gives
    every object literal, so [getStatusBadge] returns the function
    [Object] and not the fallback badge. *)
Theorem getStatusBadge_inherited_member :
  (utf8 "constructor" ∉ Spec.activity_statuses)
  /\ getStatusBadge (VStr (utf8 "constructor")) = VBuiltin (utf8 "Object")
  /\ getStatusBadge (VStr (utf8 "constructor")) <> unknown_badge.
Proof.
  split; [|split].
  - decide_closed (utf8 "constructor" ∉ Spec.activity_statuses).
  - reflexivity.
  - discriminate.
Qed.

(** *** Random scheduling *)

Lemma filter_is_active_nil (l : list Session.t) :
  (forall s, s ∈ l -> Session.status s <> VStr (utf8 "active")) ->
  List.filter is_active l = [].
Proof.
  induction l as [|s l IH]; intros H; simpl; [reflexivity|].
  destruct (is_active s) eqn:E.
  - apply strict_eq_VStr in E. exfalso. apply (H s); [left | exact E].
  - apply IH. intros x Hx. apply H. right. exact Hx.
Qed.

(** C1: when no session has the status [active],
    [scheduleRandomActivity] sends no request: all it does is show the
    warning that no active session was found. *)
Theorem scheduleRandomActivity_without_active_session (random : number) (p : page) :
  (forall s, s ∈ sessions (automationData p) -> Session.status s <> VStr (utf8 "active")) ->
  scheduleRandomActivity random p
  = (showNotification (utf8 "Aktif session bulunamadı") (utf8 "warning") p, None)
  /\ log (fst (scheduleRandomActivity random p))
     = log p ++ [Notification (utf8 "Aktif session bulunamadı") (utf8 "warning")]
  /\ (forall url method body,
        Fetch url method body ∈ log (fst (scheduleRandomActivity random p)) ->
        Fetch url method body ∈ log p).
Proof.
  intros H. unfold scheduleRandomActivity.
  rewrite (filter_is_active_nil _ H). cbn [fst].
  split; [reflexivity|]. split; [reflexivity|].
  intros url method body Hin. cbn [showNotification emit log] in Hin.
  apply elem_of_app in Hin as [Hin|Hin]; [exact Hin|].
  apply list_elem_of_singleton in Hin. discriminate.
Qed.



(** *** Session selects *)

Lemma fold_append_if_active (l : list Session.t) (acc : list select_option) :
  fold_left append_if_active l acc = acc ++ map session_option (List.filter is_active l).
Proof.
  revert acc. induction l as [|s l IH]; intros acc; simpl.
  - symmetry. apply app_nil_r.
  - rewrite IH. unfold append_if_active. destruct (is_active s); simpl.
    + rewrite <- app_assoc. reflexivity.
    + reflexivity.
Qed.






(** *** The activities table *)







(** *** Stats cards *)

Lemma updateElementText_other (elementId other : jsstring) (text : value) (p : page) :
  elementId <> other ->
  text_content (updateElementText elementId text p) !! other = text_content p !! other.
Proof.
  intros Hne. unfold updateElementText.
  destruct (text_content p !! elementId); [|reflexivity].
  cbn [text_content set_text_content]. apply lookup_insert_ne, Hne.
Qed.

Lemma updateElementText_same (elementId : jsstring) (text : value) (p : page) :
  is_Some (text_content p !! elementId) ->
  text_content (updateElementText elementId text p) !! elementId
  = Some (as_textContent text).
Proof.
  intros [old Hold]. unfold updateElementText. rewrite Hold.
  cbn [text_content set_text_content]. apply lookup_insert_eq.
Qed.

Lemma updateElementText_status (elementId : jsstring) (text : value) (p : page) :
  automationData (updateElementText elementId text p) = automationData p.
Proof. unfold updateElementText. destruct (text_content p !! elementId); reflexivity. Qed.

(** The success-rate card shows the reported rate, or 0 when the rate
    is falsy. *)
Lemma updateStatsCards_success_rate (p : page) (st : Status.t) :
  status (automationData p) = Some st ->
  is_Some (text_content p !! utf8 "success-rate") ->
  text_content (updateStatsCards p) !! utf8 "success-rate"
  = Some (ToString (or_else (ActivityStats.success_rate (Status.activity_stats st))
                            (VNum (Dec 0 0))) ++ utf8 "%").
Proof.
  intros Hst Hel. unfold updateStatsCards. rewrite Hst.
  rewrite updateElementText_same; [reflexivity|].
  rewrite !updateElementText_other by (vm_compute; congruence). exact Hel.
Qed.

(** C6: when the status payload reports no success rate, or a rate of
    zero, [updateStatsCards] writes [0%] into the success-rate card. *)
Theorem updateStatsCards_success_rate_default (p : page) (st : Status.t) :
  status (automationData p) = Some st ->
  is_Some (text_content p !! utf8 "success-rate") ->
  ActivityStats.success_rate (Status.activity_stats st) = VUndefined
  \/ (exists e, ActivityStats.success_rate (Status.activity_stats st) = VNum (Dec 0 e)) ->
  text_content (updateStatsCards p) !! utf8 "success-rate" = Some (utf8 "0%").
Proof.
  intros Hst Hel Hrate.
  rewrite (updateStatsCards_success_rate p st Hst Hel).
  destruct Hrate as [-> | [e ->]]; reflexivity.
Qed.

(** *** Scheduling from the form *)


(** C7: when the form gives no activity type or no session user
    (the field is missing or empty), [submitActivity] sends no request
    and only shows the warning; when both are given it posts one
    schedule-activity request with the chosen type and user, the target
    (null when none was entered), the delay in seconds (0 when
    [parseInt] finds none) and the count in [metadata] (1 when
    [parseInt] finds none). *)
Theorem submitActivity_validates (p : page) :
  let field name := FormData_get (utf8 name) (activity_form p) in
  (Spec.absent_or_empty (field "activity_type"%string)
   \/ Spec.absent_or_empty (field "session_user"%string) ->
   submitActivity p
   = showNotification (utf8 "Aktivite türü ve kullanıcı seçmelisiniz") (utf8 "warning") p
   /\ (forall url method body,
         Fetch url method body ∈ log (submitActivity p) -> Fetch url method body ∈ log p))
  /\ (forall t u,
        field "activity_type"%string = VStr t -> t <> [] ->
        field "session_user"%string = VStr u -> u <> [] ->
        exists target delay_seconds count,
          log (submitActivity p)
          = log p ++ [Spec.schedule_activity_request (VStr t) (VStr u) target
                        delay_seconds count]
          /\ (Spec.absent_or_empty (field "target"%string) -> target = VNull)
          /\ (forall s, field "target"%string = VStr s -> s <> [] -> target = VStr s)
          /\ (Spec.absent_or_empty (field "delay_seconds"%string) ->
              delay_seconds = VNum (Dec 0 0))
          /\ (forall n, parseInt (ToString (field "delay_seconds"%string)) = n ->
                delay_seconds = if ToBoolean (VNum n) then VNum n else VNum (Dec 0 0))
          /\ (Spec.absent_or_empty (field "count"%string) -> count = VNum (Dec 1 0))
          /\ (forall n, parseInt (ToString (field "count"%string)) = n ->
                count = if ToBoolean (VNum n) then VNum n else VNum (Dec 1 0))).
Proof.
  intros field. split.
  - intros Hempty.
    assert (Hguard : negb (ToBoolean (field "activity_type"%string))
                     || negb (ToBoolean (field "session_user"%string)) = true).
    { apply orb_true_iff.
      destruct Hempty as [[H|H]|[H|H]]; rewrite H; auto. }
    unfold submitActivity. fold (field "activity_type"%string).
    fold (field "session_user"%string). rewrite Hguard.
    split; [reflexivity|].
    intros url method body Hin. cbn [showNotification emit log] in Hin.
    apply elem_of_app in Hin as [Hin|Hin]; [exact Hin|].
    apply list_elem_of_singleton in Hin. discriminate.
  - intros t u Ht Hnt Hu Hnu.
    exists (or_else (field "target"%string) VNull),
      (or_else (VNum (parseInt (ToString (field "delay_seconds"%string)))) (VNum (Dec 0 0))),
      (or_else (VNum (parseInt (ToString (field "count"%string)))) (VNum (Dec 1 0))).
    split; [|repeat split].
    + unfold submitActivity. fold (field "activity_type"%string).
      fold (field "session_user"%string). rewrite Ht, Hu.
      destruct t; [congruence|]. destruct u; [congruence|]. reflexivity.
    + intros [H|H]; rewrite H; reflexivity.
    + intros s Hs Hne. rewrite Hs. destruct s; [congruence | reflexivity].
    + intros [H|H]; rewrite H; reflexivity.
    + intros n <-. reflexivity.
    + intros [H|H]; rewrite H; reflexivity.
    + intros n <-. reflexivity.
Qed.

(** *** Auto refresh *)

Lemma stopAutoRefresh_clears (p : page) :
  Spec.timer_owned p ->
  intervals (stopAutoRefresh p) = ∅ /\ refreshInterval (stopAutoRefresh p) = None.
Proof.
  unfold Spec.timer_owned, stopAutoRefresh.
  destruct (refreshInterval p) as [id|] eqn:E; intros H.
  - cbn [intervals refreshInterval set_refreshInterval clearInterval set_intervals].
    rewrite H. split; [apply difference_diag_L | reflexivity].
  - rewrite E. split; [exact H | reflexivity].
Qed.

Lemma startAutoRefresh_single (p : page) :
  Spec.timer_owned p ->
  intervals (startAutoRefresh p) = {[ next_interval p ]}
  /\ refreshInterval (startAutoRefresh p) = Some (next_interval p).
Proof.
  intros H. destruct (stopAutoRefresh_clears p H) as [Hi Hr].
  unfold startAutoRefresh, setInterval.
  cbn [intervals refreshInterval set_refreshInterval set_intervals].
  rewrite Hi.
  assert (Hn : next_interval (stopAutoRefresh p) = next_interval p).
  { unfold stopAutoRefresh. destruct (refreshInterval p); reflexivity. }
  rewrite Hn. split; [apply union_empty_r_L | reflexivity].
Qed.

Lemma refresh_tick_timers (p : page) :
  intervals (refresh_tick p) = intervals p
  /\ refreshInterval (refresh_tick p) = refreshInterval p.
Proof. split; reflexivity. Qed.

Lemma refresh_step_owned (p : page) (c : refresh_call) :
  Spec.timer_owned p -> Spec.timer_owned (refresh_step p c).
Proof.
  intros H. destruct c as [| | |id]; cbn [refresh_step].
  - destruct (startAutoRefresh_single p H) as [Hi Hr].
    unfold Spec.timer_owned. rewrite Hi, Hr. reflexivity.
  - destruct (stopAutoRefresh_clears p H) as [Hi Hr].
    unfold Spec.timer_owned. rewrite Hi, Hr. reflexivity.
  - destruct (stopAutoRefresh_clears p H) as [Hi Hr].
    unfold Spec.timer_owned, beforeunload. rewrite Hi, Hr. reflexivity.
  - destruct (bool_decide (id ∈ intervals p)); [|exact H].
    unfold Spec.timer_owned.
    destruct (refresh_tick_timers p) as [-> ->]. exact H.
Qed.

Lemma loaded_timer_owned text selects tb aform cform :
  Spec.timer_owned (loaded text selects tb aform cform).
Proof. reflexivity. Qed.

(** C9: from a page where the only live timer is the one
    [refreshInterval] names (as on the loaded page, which has none),
    every sequence of [startAutoRefresh], [stopAutoRefresh], unload and
    timer ticks leaves at most one live timer, the one
    [refreshInterval] names: a start clears the old timer before it
    sets the new one, and a stop clears it and resets
    [refreshInterval] to null. *)
Theorem at_most_one_refresh_timer (calls : list refresh_call) (p : page) :
  Spec.timer_owned p ->
  Spec.timer_owned (refresh_run calls p)
  /\ (size (intervals (refresh_run calls p)) <= 1)%nat
  /\ intervals (startAutoRefresh (refresh_run calls p))
     = {[ next_interval (refresh_run calls p) ]}
  /\ intervals (stopAutoRefresh (refresh_run calls p)) = ∅
  /\ refreshInterval (stopAutoRefresh (refresh_run calls p)) = None.
Proof.
  intros H.
  assert (Hrun : Spec.timer_owned (refresh_run calls p)).
  { unfold refresh_run. revert p H.
    induction calls as [|c calls IH]; intros p H; simpl; [exact H|].
    apply IH, refresh_step_owned, H. }
  split; [exact Hrun|]. split; [|split; [|split]].
  - unfold Spec.timer_owned in Hrun. rewrite Hrun.
    destruct (refreshInterval (refresh_run calls p)).
    + rewrite size_singleton. lia.
    + rewrite size_empty. lia.
  - apply startAutoRefresh_single, Hrun.
  - apply stopAutoRefresh_clears, Hrun.
  - apply stopAutoRefresh_clears, Hrun.
Qed.

End AutomationFacts.

(** ** Numbers *)

Section NumberFacts.
Local Open Scope Z_scope.












(** *** Reading back what [Number_toString] wrote *)














Lemma num_eqb_refl (m e : Z) : num_eqb (Dec m e) (Dec m e) = true.
Proof. cbn [num_eqb]. apply Z.eqb_refl. Qed.






End NumberFacts.

(** ** The config form *)

Section ConfigFacts.
Import Automation.











Section Collect.
Variable inexact_quotient : number -> number -> number.

Lemma config_entry_other (configData : gmap (list N) json) (k t key : list N) :
  k <> key -> config_entry inexact_quotient configData (k, t) !! key = configData !! key.
Proof.
  intros Hne. unfold config_entry, object_set.
  destruct (includes (utf8 "probability") k);
    destruct (jsstring_eqb k (utf8 "__proto__")); try reflexivity;
    apply lookup_insert_ne, Hne.
Qed.

Lemma fold_config_entry_other (f : list (list N * list N)) (configData : gmap (list N) json)
    (key : list N) :
  key ∉ map fst f ->
  fold_left (config_entry inexact_quotient) f configData !! key = configData !! key.
Proof.
  revert configData. induction f as [|[k t] rest IH]; intros configData Hnot; [reflexivity|].
  cbn [map fst] in Hnot. apply not_elem_of_cons in Hnot as [Hne Hnot].
  cbn [fold_left]. rewrite IH by exact Hnot. apply config_entry_other. congruence.
Qed.



End Collect.

End ConfigFacts.

(** ** Sample evaluations *)

Section Samples.
Import Automation.

Example Number_toString_samples :
  map Number_toString [Dec 7 (-1); Dec 700 (-1); Dec 123456 (-3); Dec (-5) (-7);
                       Dec 5 (-6); Dec 1 21; Dec 1 20; Dec 12 21; Dec 0 5; NaN]
  = map utf8 ["0.7"; "70"; "123.456"; "-5e-7"; "0.000005"; "1e+21";
              "100000000000000000000"; "1.2e+22"; "0"; "NaN"]%string.
Proof. vm_compute. reflexivity. Qed.

Example parseFloat_samples :
  map parseFloat (map utf8 ["  12.50e-1x"; ".5"; "."; "-Infinityx"; "1e"; "abc"; "70"]%string)
  = [Dec 1250 (-3); Dec 5 (-1); NaN; Inf true; Dec 1 0; NaN; Dec 70 0].
Proof. vm_compute. reflexivity. Qed.

Example parseInt_samples :
  map parseInt (map utf8 [""; "null"; " 42px"; "-0x1Fg"; "0"; "0x"; "+7"]%string)
  = [NaN; NaN; Dec 42 0; Dec (-31) 0; Dec 0 0; NaN; Dec 7 0].
Proof. vm_compute. reflexivity. Qed.

Example StringToNumber_samples :
  map StringToNumber (map utf8 [""; " 12 "; "1e"; "0b101"; "12px"; "-.5e1"]%string)
  = [Dec 0 0; Dec 12 0; NaN; Dec 5 0; NaN; Dec (-5) 0].
Proof. vm_compute. reflexivity. Qed.

Example getStatusBadge_pending :
  getStatusBadge (VStr (utf8 "pending"))
  = VStr (utf8 "<span class=" ++ quot ++ utf8 "badge bg-warning" ++ quot
            ++ utf8 ">Bekleyen</span>").
Proof. reflexivity. Qed.

Example getStatusBadge_missing_status :
  getStatusBadge VUndefined = unknown_badge /\ getStatusBadge (VStr (utf8 "paused")) = unknown_badge.
Proof. split; reflexivity. Qed.

Example session_option_alice :
  session_option Examples.alice
  = {| option_value := utf8 "alice"; option_text := utf8 "alice (85.5% başarı)" |}.
Proof. vm_compute. reflexivity. Qed.

Example updateSessionSelects_busy :
  session_selects (updateSessionSelects Examples.busy)
  = [[placeholder_option; session_option Examples.alice];
     [placeholder_option; session_option Examples.alice]].
Proof. reflexivity. Qed.

Example activity_row_actions :
  row_actions (activity_row Examples.like_17)
  = [ShowActivityDetails (utf8 "17"); CancelActivity (utf8 "17")]
  /\ row_actions (activity_row Examples.follow_18)
     = [ShowActivityDetails (utf8 "18"); RetryActivity (utf8 "18")].
Proof. split; reflexivity. Qed.

(** A count of 0 is falsy, so the default 1 is sent. *)
Example submitActivity_zero_count :
  log (submitActivity
         (loaded ∅ [] None
            [ (utf8 "activity_type", utf8 "like"); (utf8 "session_user", utf8 "alice");
              (utf8 "target", utf8 "carol"); (utf8 "delay_seconds", utf8 "30");
              (utf8 "count", utf8 "0") ] []))
  = [Spec.schedule_activity_request (VStr (utf8 "like")) (VStr (utf8 "alice"))
       (VStr (utf8 "carol")) (VNum (Dec 30 0)) (VNum (Dec 1 0))].
Proof. vm_compute. reflexivity. Qed.

Example startAutoRefresh_thrice :
  intervals (refresh_run [StartAutoRefresh; StartAutoRefresh; StartAutoRefresh] Examples.fresh)
  = {[ 3%positive ]}.
Proof. vm_compute. reflexivity. Qed.

End Samples.

(** ** The theorems at sample data *)

Section Witnesses.
Import Automation.

Lemma scheduleRandomActivity_without_active_session_witness :
  log (fst (scheduleRandomActivity (Dec 5 (-1)) Examples.blocked_only))
  = log Examples.blocked_only
      ++ [Notification (utf8 "Aktif session bulunamadı") (utf8 "warning")].
Proof.
  apply (scheduleRandomActivity_without_active_session (Dec 5 (-1)) Examples.blocked_only).
  intros s Hs. apply list_elem_of_singleton in Hs. subst s. discriminate.
Defined.





Lemma updateStatsCards_success_rate_default_witness :
  text_content (updateStatsCards Examples.busy) !! utf8 "success-rate" = Some (utf8 "0%").
Proof.
  apply (updateStatsCards_success_rate_default Examples.busy Examples.no_rate).
  - reflexivity.
  - exists []. vm_compute. reflexivity.
  - left. reflexivity.
Defined.

Lemma submitActivity_validates_witness :
  exists target delay_seconds count,
    log (submitActivity Examples.fresh)
    = log Examples.fresh
        ++ [Spec.schedule_activity_request (VStr (utf8 "like")) (VStr (utf8 "alice"))
              target delay_seconds count]
    /\ target = VNull /\ delay_seconds = VNum (Dec 0 0) /\ count = VNum (Dec 1 0).
Proof.
  destruct (proj2 (submitActivity_validates Examples.fresh) (utf8 "like") (utf8 "alice"))
    as (target & delay_seconds & count & Hlog & Ht & _ & Hd & _ & Hc & _).
  - reflexivity.
  - discriminate.
  - reflexivity.
  - discriminate.
  - exists target, delay_seconds, count. split; [exact Hlog|].
    split; [apply Ht; right; reflexivity|].
    split; [apply Hd; right; reflexivity | apply Hc; right; reflexivity].
Defined.

Lemma at_most_one_refresh_timer_witness :
  (size (intervals (refresh_run
                      [StartAutoRefresh; StartAutoRefresh; Tick 2; StopAutoRefresh;
                       StartAutoRefresh]
                      Examples.fresh)) <= 1)%nat.
Proof.
  apply (at_most_one_refresh_timer
           [StartAutoRefresh; StartAutoRefresh; Tick 2; StopAutoRefresh; StartAutoRefresh]
           Examples.fresh).
  reflexivity.
Defined.

End Witnesses.

(** * Further properties of the scripts *)

(** ** Labels, cards, selects and rows *)

Section DisplayFacts.
Import Automation.

(** X1: a type that is no key of [labels] and no member of
    [Object.prototype] is shown as it is: [getActivityTypeLabel]
    returns its argument unchanged. *)
Theorem getActivityTypeLabel_unknown (type : value) :
  ToString type ∉ map fst labels ->
  Object_prototype_get (ToString type) = VUndefined ->
  getActivityTypeLabel type = type.
Proof.
  intros Hkey Hproto. unfold getActivityTypeLabel, literal_get.
  rewrite own_property_None by exact Hkey. rewrite Hproto. reflexivity.
Qed.

Lemma getActivityTypeLabel_unknown_witness :
  getActivityTypeLabel (VStr (utf8 "reels_browse")) = VStr (utf8 "reels_browse").
Proof.
  apply (getActivityTypeLabel_unknown (VStr (utf8 "reels_browse"))).
  - decide_closed (ToString (VStr (utf8 "reels_browse")) ∉ map fst labels).
  - reflexivity.
Defined.

Lemma getStatusBadge_fallback_witness :
  getStatusBadge (VStr (utf8 "queued")) = unknown_badge.
Proof.
  apply (getStatusBadge_fallback (VStr (utf8 "queued"))).
  - decide_closed (ToString (VStr (utf8 "queued")) ∉ Spec.activity_statuses).
  - reflexivity.
Defined.

Lemma updateElementText_dom (elementId : list N) (text : value) (p : page) :
  dom (text_content (updateElementText elementId text p)) = dom (text_content p).
Proof.
  unfold updateElementText.
  destruct (text_content p !! elementId) eqn:E; [|reflexivity].
  cbn [text_content set_text_content]. apply dom_insert_lookup_L. eauto.
Qed.

Lemma updateElementText_log (elementId : list N) (text : value) (p : page) :
  log (updateElementText elementId text p) = log p.
Proof. unfold updateElementText. destruct (text_content p !! elementId); reflexivity. Qed.

(** X2: [updateStatsCards] creates and removes no element, leaves the
    text of every element other than its four cards as it was, sends
    nothing, and does nothing at all while no status has been
    loaded. *)
Theorem updateStatsCards_frame (p : page) :
  dom (text_content (updateStatsCards p)) = dom (text_content p)
  /\ (forall elementId, elementId ∉ More.stats_cards ->
        text_content (updateStatsCards p) !! elementId = text_content p !! elementId)
  /\ log (updateStatsCards p) = log p
  /\ automationData (updateStatsCards p) = automationData p
  /\ (status (automationData p) = None -> updateStatsCards p = p).
Proof.
  unfold updateStatsCards.
  destruct (status (automationData p)) as [st|] eqn:Est.
  - split; [|split; [|split; [|split]]].
    + rewrite !updateElementText_dom. reflexivity.
    + intros elementId Hnot.
      rewrite !updateElementText_other; [reflexivity| | | |];
        intros <-; apply Hnot; unfold More.stats_cards; cbn [map];
        repeat first [left; reflexivity | right].
    + rewrite !updateElementText_log. reflexivity.
    + rewrite !updateElementText_status. reflexivity.
    + discriminate.
  - repeat split; reflexivity.
Qed.

(** X3: each count card that exists shows the count the status
    reports, or 0 when the count is missing or falsy. *)
Theorem updateStatsCards_counts (p : page) (st : Status.t) :
  status (automationData p) = Some st ->
  let shown v := Some (ToString (or_else v (VNum (Dec 0 0)))) in
  let text := text_content (updateStatsCards p) in
  (is_Some (text_content p !! utf8 "active-sessions") ->
   text !! utf8 "active-sessions" = shown (SessionStats.active (Status.session_stats st)))
  /\ (is_Some (text_content p !! utf8 "pending-activities") ->
      text !! utf8 "pending-activities"
      = shown (ActivityStats.pending (Status.activity_stats st)))
  /\ (is_Some (text_content p !! utf8 "completed-today") ->
      text !! utf8 "completed-today"
      = shown (ActivityStats.completed (Status.activity_stats st))).
Proof.
  intros Hst shown text. subst text shown. unfold updateStatsCards. rewrite Hst.
  assert (Hor : forall v, as_textContent (or_else v (VNum (Dec 0 0)))
                          = ToString (or_else v (VNum (Dec 0 0)))).
  { intros v. unfold or_else. destruct (ToBoolean v) eqn:E; [|reflexivity].
    destruct v; try discriminate; reflexivity. }
  split; [|split]; intros Hel.
  - rewrite !updateElementText_other by (vm_compute; congruence).
    rewrite updateElementText_same by exact Hel. rewrite Hor. reflexivity.
  - rewrite !updateElementText_other by (vm_compute; congruence).
    rewrite updateElementText_same; [rewrite Hor; reflexivity|].
    rewrite !updateElementText_other by (vm_compute; congruence). exact Hel.
  - rewrite !updateElementText_other by (vm_compute; congruence).
    rewrite updateElementText_same; [rewrite Hor; reflexivity|].
    rewrite !updateElementText_other by (vm_compute; congruence). exact Hel.
Qed.

Lemma updateStatsCards_counts_witness :
  text_content (updateStatsCards Examples.busy) !! utf8 "completed-today"
  = Some (utf8 "0").
Proof.
  apply (updateStatsCards_counts Examples.busy Examples.no_rate eq_refl).
  exists []. vm_compute. reflexivity.
Defined.

End DisplayFacts.

Section SelectAndTableFacts.
Import Automation.

(** X4: [updateSessionSelects] rebuilds each select from scratch, so
    running it again changes nothing: options never pile up. *)
Theorem updateSessionSelects_idempotent (p : page) :
  updateSessionSelects (updateSessionSelects p) = updateSessionSelects p.
Proof.
  unfold updateSessionSelects.
  cbn [session_selects set_session_selects automationData].
  unfold set_session_selects. cbn. f_equal.
  rewrite map_map. reflexivity.
Qed.

(** X5: a sessions reply that reports success replaces the known
    sessions by the received ones and fills every select with the
    placeholder and the received sessions that are active, whatever
    the selects held before; a reply that reports failure leaves the
    page as it is. *)
Theorem loadSessions_then_selects (success : value) (received : list Session.t) (p : page) :
  let p' := loadSessions_then success received p in
  if ToBoolean success then
    sessions (automationData p') = received
    /\ session_selects p'
       = map (fun _ => placeholder_option
                         :: map session_option (List.filter is_active received))
             (session_selects p)
    /\ log p' = log p
  else p' = p.
Proof.
  unfold loadSessions_then. destruct (ToBoolean success); [|reflexivity].
  split; [reflexivity|]. split; [|reflexivity].
  unfold updateSessionSelects. cbn [session_selects set_session_selects set_automationData
                                     automationData sessions].
  apply map_ext. intros _. apply fold_append_if_active.
Qed.




End SelectAndTableFacts.

Section SchedulingFacts.
Import Automation.
Local Open Scope Z_scope.

Lemma ceil_scaled_bounds (i n P : Z) :
  0 <= i < n -> n - 1 < P ->
  let c := (i * P + n - 1) / n in
  0 <= c < P /\ c * n / P = i.
Proof.
  intros Hi HP c.
  assert (Hn : 0 < n) by lia.
  pose proof (Z.div_mod (i * P + n - 1) n ltac:(lia)) as Hdm.
  pose proof (Z.mod_pos_bound (i * P + n - 1) n Hn) as Hmod.
  fold c in Hdm. revert Hdm Hmod. generalize ((i * P + n - 1) mod n). intros r Hdm Hr.
  assert (Hlo : i * P <= c * n) by nia.
  assert (Hhi : c * n < (i + 1) * P) by nia.
  split.
  - split; [nia | nia].
  - symmetry. apply (Z.div_unique_pos (c * n) P i (c * n - i * P)); nia.
Qed.

(** X8: the draw can reach every active session: for each session
    whose status is [active] there is a value of [Math.random()] in
    [0, 1) for which [scheduleRandomActivity] sends that session's
    user. *)
Theorem scheduleRandomActivity_reaches (p : page) (s : Session.t) :
  s ∈ List.filter is_active (sessions (automationData p)) ->
  exists random,
    in_unit_interval random = true
    /\ scheduleRandomActivity random p
       = (fetch_post (utf8 "/srdr-proadmin/api/automation/schedule-random")
            (Some (JObj {[ utf8 "session_user" := JVal (Session.user s) ]})) p,
          None).
Proof.
  intros Hin. apply list_elem_of_In, In_nth_error in Hin as [i Hi].
  set (L := List.filter is_active (sessions (automationData p))) in *.
  assert (Hlt : (i < length L)%nat) by (apply nth_error_Some; congruence).
  set (n := Z.of_nat (length L)).
  set (P := 10 ^ n).
  assert (HP : n - 1 < P).
  { pose proof (Z.pow_gt_lin_r 10 n ltac:(lia) ltac:(lia)). lia. }
  destruct (ceil_scaled_bounds (Z.of_nat i) n P ltac:(lia) HP) as [Hc Hdiv].
  set (c := (Z.of_nat i * P + n - 1) / n) in *.
  exists (Dec c (- n)). split.
  - cbn [in_unit_interval]. rewrite Z.opp_involutive. fold P.
    apply andb_true_iff. split; [apply Z.leb_le; lia|].
    apply orb_true_iff. left. apply andb_true_iff.
    split; [apply Z.ltb_lt; lia | apply Z.ltb_lt; lia].
  - unfold scheduleRandomActivity. fold L.
    destruct L as [|s0 rest] eqn:EL; [simpl in Hlt; lia|].
    fold n. cbn [num_mul floor]. rewrite Z.add_0_r.
    destruct (0 <=? - n) eqn:E0; [apply Z.leb_le in E0; lia|].
    rewrite Z.opp_involutive. fold P. rewrite Hdiv.
    cbn [array_get].
    destruct (Z.of_nat i <? 0) eqn:E1; [apply Z.ltb_lt in E1; lia|].
    change (0 <=? 0) with true. cbv iota.
    rewrite Z.mul_1_r, Nat2Z.id, Hi. reflexivity.
Qed.

Lemma scheduleRandomActivity_reaches_witness :
  exists random,
    in_unit_interval random = true
    /\ scheduleRandomActivity random Examples.busy
       = (fetch_post (utf8 "/srdr-proadmin/api/automation/schedule-random")
            (Some (JObj {[ utf8 "session_user" := JVal (VStr (utf8 "alice")) ]}))
            Examples.busy,
          None).
Proof.
  apply (scheduleRandomActivity_reaches Examples.busy Examples.alice). left.
Defined.




End SchedulingFacts.

Section ConfigFormFacts.
Import Automation.



Section Sent.
Variable inexact_quotient : number -> number -> number.

Lemma config_entry_dom (configData : gmap (list N) json) (key text : list N) :
  dom (config_entry inexact_quotient configData (key, text))
  = (if jsstring_eqb key (utf8 "__proto__") then ∅ else {[ key ]}) ∪ dom configData.
Proof.
  unfold config_entry, object_set.
  destruct (includes (utf8 "probability") key);
    destruct (jsstring_eqb key (utf8 "__proto__"));
    rewrite ?dom_insert_L, ?union_empty_l_L; reflexivity.
Qed.

Lemma fold_config_entry_dom (f : list (list N * list N)) (acc : gmap (list N) json)
    (key : list N) :
  key ∈ dom (fold_left (config_entry inexact_quotient) f acc)
  <-> (key ∈ map fst f /\ key <> utf8 "__proto__") \/ key ∈ dom acc.
Proof.
  revert acc. induction f as [|[k t] rest IH]; intros acc; cbn [fold_left map fst].
  - rewrite elem_of_nil. tauto.
  - rewrite IH, config_entry_dom, elem_of_cons, elem_of_union.
    destruct (jsstring_eqb k (utf8 "__proto__")) eqn:E.
    + apply jsstring_eqb_eq in E. subst k. rewrite elem_of_empty.
      split; [intros [[H1 H2]|[[]|H]]; auto | intros [[[->|H1] H2]|H]; auto; congruence].
    + apply jsstring_eqb_neq in E. rewrite elem_of_singleton.
      split; [intros [[H1 H2]|[->|H]]; auto | intros [[[->|H1] H2]|H]; auto].
Qed.

(** X11: the object [saveConfig] sends has one property for every
    control name of the config form except [__proto__], and no
    other. *)
Theorem saveConfig_sends_each_name (f : list (list N * list N)) (key : list N) :
  key ∈ dom (collect_config inexact_quotient f)
  <-> key ∈ map fst f /\ key <> utf8 "__proto__".
Proof.
  unfold collect_config.
  rewrite fold_config_entry_dom, dom_empty_L, elem_of_empty. tauto.
Qed.

(** X12: when several controls share a name the last one decides:
    what [saveConfig] sends under a name is what a form holding only
    the last control of that name would send. *)
Theorem saveConfig_last_control_decides (before after : list (list N * list N))
    (key text : list N) :
  key ∉ map fst after ->
  collect_config inexact_quotient (before ++ (key, text) :: after) !! key
  = collect_config inexact_quotient [(key, text)] !! key.
Proof.
  intros Hafter. unfold collect_config.
  rewrite fold_left_app. cbn [fold_left].
  rewrite fold_config_entry_other by exact Hafter.
  unfold config_entry, object_set.
  destruct (jsstring_eqb key (utf8 "__proto__")) eqn:E.
  - assert (Hnone : forall m : gmap (list N) json, key ∉ dom m -> m !! key = None)
      by (intros m; apply not_elem_of_dom).
    destruct (includes (utf8 "probability") key);
      (rewrite Hnone, Hnone; [reflexivity | set_solver |]);
      rewrite fold_config_entry_dom, dom_empty_L, elem_of_empty;
      apply jsstring_eqb_eq in E; tauto.
  - destruct (includes (utf8 "probability") key); rewrite !lookup_insert_eq; reflexivity.
Qed.

Lemma trim_nil_trimStart (text : list N) : trim text = [] -> trimStart text = [].
Proof.
  unfold trim, trimEnd. intros H.
  destruct (trimStart text) as [|c t] eqn:E; [reflexivity|].
  exfalso.
  pose proof (drop_while_head isWhiteSpace text c t E) as Hc.
  assert (Hd : drop_while isWhiteSpace (rev (c :: t)) = []).
  { rewrite <- (rev_involutive (drop_while _ _)), H. reflexivity. }
  pose proof (take_drop_while isWhiteSpace (rev (c :: t))) as Hsp.
  rewrite Hd, app_nil_r in Hsp.
  pose proof (take_while_all isWhiteSpace (rev (c :: t))) as Hall.
  rewrite Hsp in Hall. rewrite forallb_forall in Hall.
  rewrite (Hall c) in Hc; [discriminate|].
  apply in_rev. rewrite rev_involutive. left. reflexivity.
Qed.

(** X13: a control left blank (empty, or white space only) is not sent
    as an empty string: under a name without [probability] it is sent
    as the number 0, and under a name with [probability] as NaN. *)
Theorem saveConfig_blank_control (key text : list N) :
  trim text = [] ->
  key <> utf8 "__proto__" ->
  collect_config inexact_quotient [(key, text)] !! key
  = Some (JVal (VNum (if includes (utf8 "probability") key then NaN else Dec 0 0))).
Proof.
  intros Hblank Hkey. unfold collect_config. cbn [fold_left].
  unfold config_entry, object_set.
  rewrite (proj2 (jsstring_eqb_neq _ _) Hkey).
  destruct (includes (utf8 "probability") key); rewrite lookup_insert_eq.
  - unfold parseFloat. rewrite (trim_nil_trimStart text Hblank). reflexivity.
  - unfold isNaN. cbn [ToNumber]. unfold StringToNumber. rewrite Hblank. reflexivity.
Qed.

End Sent.

Lemma saveConfig_last_control_decides_witness :
  collect_config (fun _ _ => NaN)
    ([(utf8 "limit", utf8 "10")] ++ (utf8 "limit", utf8 "20") :: [(utf8 "other", [])])
    !! utf8 "limit"
  = collect_config (fun _ _ => NaN) [(utf8 "limit", utf8 "20")] !! utf8 "limit".
Proof.
  apply (saveConfig_last_control_decides (fun _ _ => NaN) [(utf8 "limit", utf8 "10")] [(utf8 "other", [])]).
  decide_closed (utf8 "limit" ∉ map fst [(utf8 "other", ([] : list N))]).
Defined.

Lemma saveConfig_blank_control_witness :
  collect_config (fun _ _ => NaN) [(utf8 "daily_likes_limit", utf8 "  ")]
    !! utf8 "daily_likes_limit"
  = Some (JVal (VNum (Dec 0 0))).
Proof.
  apply (saveConfig_blank_control (fun _ _ => NaN) (utf8 "daily_likes_limit") (utf8 "  ")).
  - reflexivity.
  - discriminate.
Defined.

End ConfigFormFacts.

(** ** The script as a whole *)

Section ScriptFacts.
Import Automation AutomationControl.

(** X14: a reply that does not report success makes its callback show
    one error notification and nothing else: no request goes out, no
    modal is closed, and the data and the forms stay as they were.
    This holds for the callbacks of all eight actions. *)
Theorem failed_reply_only_notifies (callback : Reply.t -> page -> page) (data : Reply.t)
    (p : page) :
  callback ∈ More.reply_callbacks ->
  ToBoolean (Reply.success data) = false ->
  exists message, callback data p = showNotification message (utf8 "error") p.
Proof.
  intros Hin Hfail. unfold More.reply_callbacks in Hin.
  repeat (apply elem_of_cons in Hin as [->|Hin]);
    [..|apply elem_of_nil in Hin; destruct Hin];
    unfold startAutomation_then, stopAutomation_then, scheduleKeepAliveAll_then,
      scheduleRandomActivity_then, submitActivity_then, saveConfig_then,
      retryActivity_then, cancelActivity_then;
    rewrite Hfail; eexists; reflexivity.
Qed.

Lemma failed_reply_only_notifies_witness :
  exists message,
    retryActivity_then More.failure_without_message Examples.busy
    = showNotification message (utf8 "error") Examples.busy.
Proof.
  apply (failed_reply_only_notifies retryActivity_then More.failure_without_message
           Examples.busy).
  - unfold More.reply_callbacks. do 6 right. left.
  - reflexivity.
Defined.

Lemma updateElementText_timers (elementId : list N) (text : value) (p : page) :
  intervals (updateElementText elementId text p) = intervals p
  /\ refreshInterval (updateElementText elementId text p) = refreshInterval p
  /\ log (updateElementText elementId text p) = log p.
Proof.
  unfold updateElementText. destruct (text_content p !! elementId); auto.
Qed.

Lemma updateStatsCards_timers (p : page) :
  intervals (updateStatsCards p) = intervals p
  /\ refreshInterval (updateStatsCards p) = refreshInterval p
  /\ log (updateStatsCards p) = log p.
Proof.
  unfold updateStatsCards. destruct (status (automationData p)); [|auto].
  repeat match goal with
         | |- context [updateElementText ?i ?t ?q] =>
           destruct (updateElementText_timers i t q) as (-> & -> & ->)
         end.
  auto.
Qed.

Lemma updateRecentActivitiesTable_timers (p : page) :
  intervals (updateRecentActivitiesTable p) = intervals p
  /\ refreshInterval (updateRecentActivitiesTable p) = refreshInterval p
  /\ log (updateRecentActivitiesTable p) = log p.
Proof.
  unfold updateRecentActivitiesTable.
  destruct (recent_activities_tbody p); [|auto].
  destruct (activities (automationData p)); auto.
Qed.

Lemma fill_config_fields_timers (config : list (list N * value)) (p : page) :
  intervals (fst (fill_config_fields config p)) = intervals p
  /\ refreshInterval (fst (fill_config_fields config p)) = refreshInterval p
  /\ log (fst (fill_config_fields config p)) = log p.
Proof.
  revert p. induction config as [|[key v] rest IH]; intros p; [auto|].
  cbn [fill_config_fields].
  assert (H1 : intervals (fst (fill_config_field key v p)) = intervals p
               /\ refreshInterval (fst (fill_config_field key v p)) = refreshInterval p
               /\ log (fst (fill_config_field key v p)) = log p).
  { unfold fill_config_field.
    destruct (css_plain key); [|auto].
    destruct (has_control key (config_form p)); auto. }
  destruct (fill_config_field key v p) as [p1 [e|]]; [exact H1|].
  cbn [fst] in H1. destruct H1 as (H1 & H2 & H3).
  destruct (IH p1) as (-> & -> & ->). auto.
Qed.

(** Every entry point other than the page load and the timer calls
    leaves the timers alone. *)
Lemma script_step_timers (inexact_quotient : number -> number -> number) (p : page)
    (c : script_call) :
  match c with
  | PageLoaded | Refresh _ => True
  | _ =>
    intervals (script_step inexact_quotient p c) = intervals p
    /\ refreshInterval (script_step inexact_quotient p c) = refreshInterval p
  end.
Proof.
  destruct c; cbn [script_step]; try exact I;
    try (unfold startAutomation_then, stopAutomation_then, stopAutomation,
           scheduleKeepAliveAll_then, scheduleRandomActivity_then, submitActivity,
           submitActivity_then, saveConfig_then, retryActivity_then, cancelActivity,
           cancelActivity_then;
         match goal with
         | |- context [if ?b then _ else _] => destruct b
         end; split; reflexivity);
    try (split; reflexivity).
  - destruct (updateStatsCards_timers p) as (-> & -> & _). auto.
  - unfold loadSessions_then. destruct (ToBoolean success); split; reflexivity.
  - unfold loadRecentActivities_then. destruct (ToBoolean success); [|split; reflexivity].
    match goal with
    | |- context [updateRecentActivitiesTable ?q] =>
      destruct (updateRecentActivitiesTable_timers q) as (-> & -> & _)
    end.
    split; reflexivity.
  - unfold scheduleRandomActivity.
    destruct (List.filter is_active (sessions (automationData p))); [split; reflexivity|].
    match goal with
    | |- context [array_get ?l ?i] => destruct (array_get l i)
    end; split; reflexivity.
  - unfold showConfigModal_then.
    destruct (fill_config_fields_timers config p) as (H1 & H2 & _).
    destruct (fill_config_fields config p) as [p1 [e|]]; cbn [fst] in H1, H2;
      rewrite <- H1, <- H2; split; reflexivity.
Qed.

Lemma script_step_owned (inexact_quotient : number -> number -> number) (p : page)
    (c : script_call) :
  Spec.timer_owned p -> Spec.timer_owned (script_step inexact_quotient p c).
Proof.
  intros H. pose proof (script_step_timers inexact_quotient p c) as Hc.
  destruct c as [|r| | | | | | | | | | | | | | | | | | | | | | |];
    [ cbn [script_step]; unfold DOMContentLoaded;
      destruct (startAutoRefresh_single (initializeAutomation p) H) as [Hi Hr];
      unfold Spec.timer_owned; rewrite Hi, Hr; reflexivity
    | cbn [script_step]; apply refresh_step_owned, H
    | unfold Spec.timer_owned; destruct Hc as [-> ->]; exact H .. ].
Qed.

(** X15: no entry point of the script other than [startAutoRefresh]
    and [stopAutoRefresh] touches the timers: whatever the page does
    after it has loaded (clicks, replies, failures, page loads, ticks),
    at most one interval timer is live, and it is the one
    [refreshInterval] names. *)
Theorem script_keeps_one_timer (inexact_quotient : number -> number -> number)
    (calls : list script_call) (p : page) :
  Spec.timer_owned p ->
  Spec.timer_owned (script_run inexact_quotient calls p)
  /\ (size (intervals (script_run inexact_quotient calls p)) <= 1)%nat.
Proof.
  intros H.
  assert (Hrun : Spec.timer_owned (script_run inexact_quotient calls p)).
  { unfold script_run. revert p H.
    induction calls as [|c calls IH]; intros p H; cbn [fold_left]; [exact H|].
    apply IH, script_step_owned, H. }
  split; [exact Hrun|].
  unfold Spec.timer_owned in Hrun. rewrite Hrun.
  destruct (refreshInterval (script_run inexact_quotient calls p)).
  - rewrite size_singleton. lia.
  - rewrite size_empty. lia.
Qed.

Lemma script_keeps_one_timer_witness :
  Spec.timer_owned
    (script_run (fun _ _ => NaN)
       [PageLoaded; StartAutomation; Refresh StartAutoRefresh; Refresh (Tick 2);
        PageLoaded]
       Examples.fresh)
  /\ (size (intervals
             (script_run (fun _ _ => NaN)
                [PageLoaded; StartAutomation; Refresh StartAutoRefresh; Refresh (Tick 2);
                 PageLoaded]
                Examples.fresh)) <= 1)%nat.
Proof.
  apply (script_keeps_one_timer (fun _ _ => NaN)
           [PageLoaded; StartAutomation; Refresh StartAutoRefresh; Refresh (Tick 2);
            PageLoaded]
           Examples.fresh).
  reflexivity.
Defined.

Lemma emit_sends (p q : page) (e : event) :
  (exists new, log q = log p ++ new /\ Forall (fun e => api_request e = true) new) ->
  api_request e = true ->
  exists new, log (emit e q) = log p ++ new /\ Forall (fun e => api_request e = true) new.
Proof.
  intros (new & Hlog & Hall) He. exists (new ++ [e]). split.
  - cbn [log emit]. rewrite Hlog, app_assoc. reflexivity.
  - apply Forall_app. split; [exact Hall | repeat constructor; exact He].
Qed.

Lemma same_log_sends (p q : page) :
  log q = log p ->
  exists new, log q = log p ++ new /\ Forall (fun e => api_request e = true) new.
Proof. intros ->. exists []. split; [symmetry; apply app_nil_r | constructor]. Qed.

Lemma api_request_post (url : list N) (body : option json) :
  starts_with (utf8 "/srdr-proadmin/api/automation/") url = true ->
  api_request (Fetch url (utf8 "POST") body) = true.
Proof. intros H. unfold api_request. rewrite H, jsstring_eqb_refl. reflexivity. Qed.

Ltac sends :=
  unfold showNotification, loadRecentActivities, loadAutomationStatus, loadSessions,
    loadConfig, fetch_get, fetch_post;
  repeat (apply emit_sends; [|first [apply api_request_post|idtac]; reflexivity]);
  apply same_log_sends; first [reflexivity | assumption].

Lemma startAutoRefresh_log (p : page) : log (startAutoRefresh p) = log p.
Proof.
  unfold startAutoRefresh, stopAutoRefresh. destruct (refreshInterval p); reflexivity.
Qed.

Lemma stopAutoRefresh_log (p : page) : log (stopAutoRefresh p) = log p.
Proof. unfold stopAutoRefresh. destruct (refreshInterval p); reflexivity. Qed.

Lemma script_step_sends (inexact_quotient : number -> number -> number) (p : page)
    (c : script_call) :
  exists new,
    log (script_step inexact_quotient p c) = log p ++ new
    /\ Forall (fun e => api_request e = true) new.
Proof.
  destruct c as [|r| | | | | | | | | | | | | | | | | | | | | | |]; cbn [script_step].
  - unfold DOMContentLoaded. rewrite startAutoRefresh_log.
    unfold initializeAutomation. sends.
  - destruct r as [| | |id]; cbn [refresh_step].
    + apply same_log_sends, startAutoRefresh_log.
    + apply same_log_sends, stopAutoRefresh_log.
    + apply same_log_sends, stopAutoRefresh_log.
    + destruct (bool_decide (id ∈ intervals p)); [unfold refresh_tick|]; sends.
  - apply same_log_sends, updateStatsCards_timers.
  - unfold loadSessions_then. destruct (ToBoolean success); sends.
  - unfold loadRecentActivities_then. destruct (ToBoolean success); [|sends].
    apply same_log_sends.
    match goal with
    | |- context [updateRecentActivitiesTable ?q] =>
      destruct (updateRecentActivitiesTable_timers q) as (_ & _ & ->)
    end.
    reflexivity.
  - unfold startAutomation. sends.
  - unfold startAutomation_then. destruct (ToBoolean (Reply.success data)); sends.
  - unfold stopAutomation. destruct (negb confirmed); sends.
  - unfold stopAutomation_then. destruct (ToBoolean (Reply.success data)); sends.
  - unfold scheduleKeepAliveAll. sends.
  - unfold scheduleKeepAliveAll_then. destruct (ToBoolean (Reply.success data)); sends.
  - unfold scheduleRandomActivity.
    destruct (List.filter is_active (sessions (automationData p))); [cbn [fst]; sends|].
    match goal with
    | |- context [array_get ?l ?i] => destruct (array_get l i)
    end; cbn [fst]; sends.
  - unfold scheduleRandomActivity_then. destruct (ToBoolean (Reply.success data)); sends.
  - unfold submitActivity.
    match goal with
    | |- context [if ?b then _ else _] => destruct b
    end; sends.
  - unfold submitActivity_then. destruct (ToBoolean (Reply.success data)); sends.
  - unfold showConfigModal. sends.
  - destruct (fill_config_fields_timers config p) as (_ & _ & Hlog).
    unfold showConfigModal_then.
    destruct (fill_config_fields config p) as [p1 [e|]]; cbn [fst] in Hlog;
      [unfold showConfigModal_catch|]; sends.
  - unfold showConfigModal_catch. sends.
  - unfold saveConfig. sends.
  - unfold saveConfig_then. destruct (ToBoolean (Reply.success data)); sends.
  - unfold retryActivity. sends.
  - unfold retryActivity_then. destruct (ToBoolean (Reply.success data)); sends.
  - unfold cancelActivity. destruct (negb confirmed); sends.
  - unfold cancelActivity_then. destruct (ToBoolean (Reply.success data)); sends.
  - unfold action_catch. sends.
Qed.

(** X16: whatever runs (clicks, replies, failures, page loads, ticks),
    the script only adds to what it has sent and shown, and every
    request it adds goes to a path under
    [/srdr-proadmin/api/automation/], as a POST or as a GET without a
    body. *)
Theorem script_requests_api_only (inexact_quotient : number -> number -> number)
    (calls : list script_call) (p : page) :
  exists new,
    log (script_run inexact_quotient calls p) = log p ++ new
    /\ Forall (fun e => api_request e = true) new.
Proof.
  unfold script_run. revert p.
  induction calls as [|c calls IH]; intros p; cbn [fold_left].
  - exists []. split; [symmetry; apply app_nil_r | constructor].
  - destruct (IH (script_step inexact_quotient p c)) as (new2 & Hlog2 & Hall2).
    destruct (script_step_sends inexact_quotient p c) as (new1 & Hlog1 & Hall1).
    exists (new1 ++ new2). split.
    + rewrite Hlog2, Hlog1, app_assoc. reflexivity.
    + apply Forall_app. split; assumption.
Qed.

End ScriptFacts.

(** ** activity.js: validation and the stats display *)

Section ValidationFacts.
Import ActivityManager.

Lemma hashtag_class_char c : hashtag_class c = true <-> More.hashtag_char c.
Proof.
  unfold hashtag_class, RegExp.in_range, More.hashtag_char, Spec.ascii_letter,
    Spec.ascii_digit.
  rewrite !orb_true_iff, !andb_true_iff, !N.leb_le, !N.eqb_eq. lia.
Qed.

(** X17: [validateHashtag] returns true exactly on the strings that,
    trimmed and without their first [#], are non-empty, at most 100
    code units long and made of ASCII letters, digits and underscores;
    on every other string it returns false. *)
Theorem validateHashtag_accepts_exactly (hashtag : jsstring) :
  (validateHashtag hashtag = true <-> More.acceptable_hashtag hashtag)
  /\ (validateHashtag hashtag = false <-> ~ More.acceptable_hashtag hashtag).
Proof.
  assert (H : validateHashtag hashtag = true <-> More.acceptable_hashtag hashtag).
  { unfold validateHashtag, More.acceptable_hashtag.
    change (utf8 "#") with [35]. rewrite replace_single, test_Plus_Class.
    set (clean := Spec.remove_first 35 (trim hashtag)).
    rewrite !andb_true_iff, negb_true_iff, bool_decide_eq_false, Nat.ltb_lt, Nat.leb_le.
    assert (Hall : forallb hashtag_class clean = true <-> Forall More.hashtag_char clean).
    { rewrite forallb_forall, List.Forall_forall.
      split; intros Hc c Hin; apply hashtag_class_char, Hc, Hin. }
    rewrite Hall. split.
    - intros [[[Hne Hcl] _] Hlen]. auto.
    - intros (Hne & Hlen & Hcl). repeat split; auto.
      destruct clean; [congruence | simpl; lia]. }
  split; [exact H|].
  rewrite <- H. destruct (validateHashtag hashtag); split; congruence.
Qed.

Lemma drop_while_app_all (p : N -> bool) (l s : list N) :
  forallb p l = true -> drop_while p (l ++ s) = drop_while p s.
Proof.
  induction l as [|c l IH]; cbn [forallb app drop_while]; [reflexivity|].
  intros H. apply andb_true_iff in H as [-> H]. apply IH, H.
Qed.

Lemma drop_while_app_stop (p : N -> bool) (s t : list N) :
  drop_while p s <> [] -> drop_while p (s ++ t) = drop_while p s ++ t.
Proof.
  induction s as [|c s IH]; cbn [app drop_while]; [congruence|].
  destruct (p c); [exact IH | reflexivity].
Qed.

Lemma drop_while_all (p : N -> bool) (s : list N) :
  drop_while p s = [] -> forallb p s = true.
Proof.
  induction s as [|c s IH]; cbn [drop_while forallb]; [reflexivity|].
  destruct (p c); [exact IH | discriminate].
Qed.

Lemma trim_surrounded (lead s trail : list N) :
  forallb isWhiteSpace lead = true ->
  forallb isWhiteSpace trail = true ->
  trim (lead ++ s ++ trail) = trim s.
Proof.
  intros Hlead Htrail. unfold trim, trimStart.
  rewrite drop_while_app_all by exact Hlead.
  assert (Hrev : forallb isWhiteSpace (rev trail) = true).
  { rewrite forallb_forall in *. intros c Hc. apply Htrail, in_rev, Hc. }
  destruct (drop_while isWhiteSpace s) as [|c t] eqn:E.
  - rewrite <- (app_nil_r trail) at 1. rewrite app_assoc.
    rewrite drop_while_app_all; [reflexivity|].
    rewrite forallb_app, (drop_while_all _ _ E), Htrail. reflexivity.
  - rewrite drop_while_app_stop by (rewrite E; discriminate). rewrite E.
    unfold trimEnd. rewrite rev_app_distr, drop_while_app_all by exact Hrev. reflexivity.
Qed.

(** X18: white space around the input does not count: both validators
    give the same answer for a string and for the same string with any
    white space before and after it. *)
Theorem validators_ignore_surrounding_space (lead s trail : jsstring) :
  forallb isWhiteSpace lead = true ->
  forallb isWhiteSpace trail = true ->
  validateHashtag (lead ++ s ++ trail) = validateHashtag s
  /\ validateUsername (lead ++ s ++ trail) = validateUsername s.
Proof.
  intros Hlead Htrail. unfold validateHashtag, validateUsername.
  rewrite (trim_surrounded lead s trail Hlead Htrail). split; reflexivity.
Qed.

Lemma validators_ignore_surrounding_space_witness :
  validateHashtag ([9; 32] ++ utf8 "#travel" ++ [10])
  = validateHashtag (utf8 "#travel")
  /\ validateUsername ([9; 32] ++ utf8 "#travel" ++ [10])
     = validateUsername (utf8 "#travel").
Proof.
  apply (validators_ignore_surrounding_space [9; 32] (utf8 "#travel") [10]); reflexivity.
Defined.

(** X19: [updateStatsDisplay] creates and removes no element and
    writes only to the three stats elements; those that exist get the
    text of the received value, the rate with [%] appended and with no
    fallback for a missing rate. *)
Theorem updateStatsDisplay_frame (s : stats) (elements : gmap jsstring jsstring) :
  let shown := updateStatsDisplay s elements in
  dom shown = dom elements
  /\ (forall name,
        name ∉ map utf8 ["likes_today"; "follows_today"; "success_rate"]%string ->
        shown !! name = elements !! name)
  /\ (forall name text,
        shown !! name = Some text ->
        text <> default text (elements !! name) ->
        (name = utf8 "likes_today" /\ text = as_textContent (likes_today s))
        \/ (name = utf8 "follows_today" /\ text = as_textContent (follows_today s))
        \/ (name = utf8 "success_rate" /\ text = ToString (success_rate s) ++ utf8 "%")).
Proof.
  assert (Hwrite : forall (key text : list N) (m : gmap (list N) (list N)),
            let m' := match m !! key with
                      | Some _ => <[key := text]> m
                      | None => m
                      end in
            dom m' = dom m
            /\ (forall name, name <> key -> m' !! name = m !! name)
            /\ (forall name, m' !! name = m !! name \/ (name = key /\ m' !! name = Some text))).
  { intros key text m. cbv zeta. destruct (m !! key) eqn:E.
    - split; [|split].
      + rewrite dom_insert_L. apply subseteq_union_1_L, singleton_subseteq_l.
        apply elem_of_dom_2 in E. exact E.
      + intros name Hne. apply lookup_insert_ne. congruence.
      + intros name. destruct (decide (name = key)) as [->|Hne].
        * right. split; [reflexivity | apply lookup_insert_eq].
        * left. apply lookup_insert_ne. congruence.
    - split; [reflexivity|]. split; auto. }
  cbv zeta. unfold updateStatsDisplay.
  set (t1 := as_textContent (likes_today s)).
  set (t2 := as_textContent (follows_today s)).
  set (t3 := ToString (success_rate s) ++ utf8 "%").
  destruct (Hwrite (utf8 "likes_today") t1 elements) as (D1 & O1 & W1).
  set (m1 := match elements !! utf8 "likes_today" with
             | Some _ => _ | None => _ end) in *.
  destruct (Hwrite (utf8 "follows_today") t2 m1) as (D2 & O2 & W2).
  set (m2 := match m1 !! utf8 "follows_today" with
             | Some _ => _ | None => _ end) in *.
  destruct (Hwrite (utf8 "success_rate") t3 m2) as (D3 & O3 & W3).
  set (m3 := match m2 !! utf8 "success_rate" with
             | Some _ => _ | None => _ end) in *.
  split; [congruence|]. split.
  - intros name Hname. cbn [map] in Hname.
    rewrite !not_elem_of_cons in Hname. destruct Hname as (H1 & H2 & H3 & _).
    rewrite O3, O2, O1 by assumption. reflexivity.
  - intros name text Hshown Hnew.
    destruct (W3 name) as [E3|[-> E3]];
      [|right; right; split; [reflexivity | congruence]].
    destruct (W2 name) as [E2|[-> E2]];
      [|right; left; split; [reflexivity | congruence]].
    destruct (W1 name) as [E1|[-> E1]];
      [|left; split; [reflexivity | congruence]].
    exfalso. apply Hnew. rewrite <- E1, <- E2, <- E3, Hshown. reflexivity.
Qed.

End ValidationFacts.

(** ** activity.js: alerts, loading state and [debounce] *)

Section InterfaceFacts.
Import ActivityManagerUI.

(** X21: a type that is none of the four alert types and no member
    of [Object.prototype] gets the [info-circle] icon. *)
Theorem getIconForType_fallback (type : value) :
  ToString type ∉ map fst icons ->
  Object_prototype_get (ToString type) = VUndefined ->
  getIconForType type = VStr (utf8 "info-circle").
Proof.
  intros Hkey Hproto. unfold getIconForType, literal_get.
  rewrite own_property_None by exact Hkey. rewrite Hproto. reflexivity.
Qed.

Lemma getIconForType_fallback_witness :
  getIconForType (VStr (utf8 "error")) = VStr (utf8 "info-circle").
Proof.
  apply (getIconForType_fallback (VStr (utf8 "error"))).
  - decide_closed (ToString (VStr (utf8 "error")) ∉ map fst icons).
  - reflexivity.
Defined.

Lemma hideAlert_length (d : alerts_view) :
  length (floating_alerts (hideAlert d)) = pred (length (floating_alerts d)).
Proof.
  unfold hideAlert. destruct (floating_alerts d) eqn:E; [rewrite E|]; reflexivity.
Qed.

Lemma alert_step_length (d : alerts_view) (c : alert_call) :
  (length (floating_alerts d) <= 1)%nat ->
  (length (floating_alerts (alert_step d c)) <= 1)%nat.
Proof.
  intros H. destruct c as [message type duration| |id]; cbn [alert_step].
  - unfold showAlert. cbn [floating_alerts].
    rewrite length_app, hideAlert_length. cbn [length]. lia.
  - rewrite hideAlert_length. lia.
  - unfold alert_timeout. destruct (timeouts d !! id); [|exact H].
    rewrite hideAlert_length. cbn [floating_alerts]. lia.
Qed.

(** X22: the page never shows two floating alerts: from a page with
    at most one, every sequence of [showAlert], [hideAlert] and
    expiring timeouts leaves at most one. *)
Theorem at_most_one_floating_alert (calls : list alert_call) (d : alerts_view) :
  (length (floating_alerts d) <= 1)%nat ->
  (length (floating_alerts (fold_left alert_step calls d)) <= 1)%nat.
Proof.
  revert d. induction calls as [|c calls IH]; intros d H; cbn [fold_left]; [exact H|].
  apply IH, alert_step_length, H.
Qed.

Lemma at_most_one_floating_alert_witness :
  (length (floating_alerts
             (fold_left alert_step
                [ShowAlert (VStr (utf8 "saved")) (VStr (utf8 "success")) VUndefined;
                 ShowAlert (VStr (utf8 "failed")) (VStr (utf8 "danger")) VUndefined;
                 AlertTimeout 1]
                More.no_alert)) <= 1)%nat.
Proof.
  apply (at_most_one_floating_alert
           [ShowAlert (VStr (utf8 "saved")) (VStr (utf8 "success")) VUndefined;
            ShowAlert (VStr (utf8 "failed")) (VStr (utf8 "danger")) VUndefined;
            AlertTimeout 1]
           More.no_alert).
  cbn. lia.
Defined.

(** X23: [showAlert] does not cancel the timeout of the alert it
    replaces: when a second alert is shown before the timeout of the
    first has expired, that timeout removes the second alert, whatever
    duration the second was given, and the timeout of the second is
    still pending. *)
Theorem stale_timeout_hides_newer_alert (message1 type1 duration1 message2 type2
    duration2 : value) (d : alerts_view) :
  (length (floating_alerts d) <= 1)%nat ->
  let first := next_timeout d in
  let d2 := showAlert message2 type2 duration2 (showAlert message1 type1 duration1 d) in
  (exists shown, floating_alerts d2 = [shown] /\ alert_message shown = ToString message2)
  /\ floating_alerts (alert_timeout first d2) = []
  /\ timeouts (alert_timeout first d2) !! Pos.succ first
     = Some (ToNumber (with_default (VNum (Dec 5000 0)) duration2)).
Proof.
  intros Hlen. cbv zeta.
  assert (Hnext : forall m t u x, next_timeout (hideAlert x) = next_timeout x
                                  /\ timeouts (hideAlert x) = timeouts x
                                  /\ next_timeout (showAlert m t u x)
                                     = Pos.succ (next_timeout x)).
  { intros m t u x. unfold showAlert, hideAlert.
    destruct (floating_alerts x); auto. }
  assert (Hone : forall m t u x,
             (length (floating_alerts x) <= 1)%nat ->
             exists shown, floating_alerts (showAlert m t u x) = [shown]
                           /\ alert_message shown = ToString m).
  { intros m t u x Hx. unfold showAlert. cbn [floating_alerts].
    pose proof (hideAlert_length x) as Hh.
    destruct (floating_alerts (hideAlert x)); [|cbn [length] in Hh; lia].
    eexists. split; reflexivity. }
  destruct (Hone message1 type1 duration1 d Hlen) as (a1 & Ha1 & _).
  destruct (Hone message2 type2 duration2 (showAlert message1 type1 duration1 d))
    as (a2 & Ha2 & Hm2); [rewrite Ha1; cbn [length]; lia|].
  set (d1 := showAlert message1 type1 duration1 d) in *.
  assert (Htimeouts : timeouts (showAlert message2 type2 duration2 d1)
                      = <[Pos.succ (next_timeout d) :=
                            ToNumber (with_default (VNum (Dec 5000 0)) duration2)]>
                          (<[next_timeout d :=
                               ToNumber (with_default (VNum (Dec 5000 0)) duration1)]>
                             (timeouts d))).
  { unfold showAlert at 1. cbn [timeouts].
    destruct (Hnext message1 type1 duration1 d1) as (-> & -> & _).
    subst d1. destruct (Hnext message1 type1 duration1 d) as (_ & _ & ->).
    unfold showAlert. cbn [timeouts next_timeout].
    destruct (Hnext message1 type1 duration1 d) as (-> & -> & _). reflexivity. }
  split; [exists a2; auto|].
  unfold alert_timeout. rewrite Htimeouts.
  rewrite lookup_insert_ne by lia. rewrite lookup_insert_eq.
  unfold hideAlert. cbn [floating_alerts timeouts]. rewrite Ha2.
  cbn [floating_alerts timeouts]. split; [reflexivity|].
  rewrite lookup_delete_ne by lia. apply lookup_insert_eq.
Qed.

Lemma stale_timeout_hides_newer_alert_witness :
  floating_alerts
    (alert_timeout 1
       (showAlert (VStr (utf8 "failed")) (VStr (utf8 "danger")) (VNum (Dec 60000 0))
          (showAlert (VStr (utf8 "saved")) (VStr (utf8 "success")) VUndefined
             More.no_alert)))
  = [].
Proof.
  apply (stale_timeout_hides_newer_alert
           (VStr (utf8 "saved")) (VStr (utf8 "success")) VUndefined
           (VStr (utf8 "failed")) (VStr (utf8 "danger")) (VNum (Dec 60000 0))
           More.no_alert).
  cbn. lia.
Defined.

(** X24: switching the loading state on and off again enables the
    button and restores its text, or [İşlem Yap] when it had none; what
    comes back is text only, so child elements the button had are
    gone. *)
Theorem setLoading_round_trip (element : button) (on off : value) :
  ToBoolean (with_default (VBool true) on) = true ->
  ToBoolean (with_default (VBool true) off) = false ->
  let restored := setLoading (setLoading element on) off in
  disabled (setLoading element on) = true
  /\ disabled restored = false
  /\ content restored
     = [Text match textContent (content element) with
             | [] => utf8 "İşlem Yap"
             | text => text
             end].
Proof.
  intros Hon Hoff. cbv zeta. unfold setLoading. rewrite Hon, Hoff.
  cbn [disabled content originalText].
  split; [reflexivity|]. split; [reflexivity|].
  destruct (textContent (content element)); reflexivity.
Qed.

Lemma setLoading_round_trip_witness :
  content (setLoading (setLoading More.save_button VUndefined) (VBool false))
  = [Text (utf8 "Kaydet")].
Proof.
  apply (setLoading_round_trip More.save_button VUndefined (VBool false)); reflexivity.
Defined.

(** X25: switching the loading state on twice loses the text: the
    second call saves the loading text as the original, so switching
    it off then leaves the button reading the loading text. *)
Theorem setLoading_twice_loses_text (element : button) (on on' off : value) :
  ToBoolean (with_default (VBool true) on) = true ->
  ToBoolean (with_default (VBool true) on') = true ->
  ToBoolean (with_default (VBool true) off) = false ->
  content (setLoading (setLoading (setLoading element on) on') off)
  = [Text (utf8 " İşlem yapılıyor...")].
Proof.
  intros Hon Hon' Hoff. unfold setLoading. rewrite Hon, Hon', Hoff. reflexivity.
Qed.

Lemma setLoading_twice_loses_text_witness :
  content (setLoading (setLoading (setLoading More.save_button VUndefined) (VBool true))
             (VBool false))
  = [Text (utf8 " İşlem yapılıyor...")].
Proof.
  apply (setLoading_twice_loses_text More.save_button VUndefined (VBool true) (VBool false));
    reflexivity.
Defined.

Lemma debounce_step_pending (d : debounced) (e : debounce_event) :
  (pending d = ∅ \/ exists id args, timeout d = Some id /\ pending d = {[id := args]}) ->
  pending (debounce_step d e) = ∅
  \/ exists id args,
       timeout (debounce_step d e) = Some id /\ pending (debounce_step d e) = {[id := args]}.
Proof.
  intros H. destruct e as [args|id]; cbn [debounce_step].
  - right. exists (next_timer d), args. split; [reflexivity|].
    unfold executedFunction. cbn [pending].
    destruct H as [->|(id & old & -> & ->)].
    + destruct (timeout d); cbn [clear_timeout]; [rewrite delete_empty|]; reflexivity.
    + cbn [clear_timeout]. rewrite delete_singleton_eq. reflexivity.
  - unfold timer_expires.
    destruct (pending d !! id) as [args|] eqn:E; [|exact H].
    left. cbn [pending].
    destruct H as [H|(id' & old & Ht & Hp)].
    + rewrite H in E. rewrite lookup_empty in E. discriminate.
    + rewrite Hp in E. apply lookup_singleton_Some in E as [<- <-].
      rewrite Ht, Hp. cbn [clear_timeout].
      rewrite delete_singleton_eq. apply delete_empty.
Qed.

Lemma debounce_run_pending (events : list debounce_event) :
  let d := fold_left debounce_step events debounce in
  pending d = ∅ \/ exists id args, timeout d = Some id /\ pending d = {[id := args]}.
Proof.
  cbv zeta.
  assert (H : forall d,
             (pending d = ∅
              \/ exists id args, timeout d = Some id /\ pending d = {[id := args]}) ->
             pending (fold_left debounce_step events d) = ∅
             \/ exists id args,
                  timeout (fold_left debounce_step events d) = Some id
                  /\ pending (fold_left debounce_step events d) = {[id := args]}).
  { induction events as [|e events IH]; intros d Hd; cbn [fold_left]; [exact Hd|].
    apply IH, debounce_step_pending, Hd. }
  apply H. left. reflexivity.
Qed.

(** X26: a debounced function has at most one timer pending, however
    it is invoked and whenever its timers expire, and the pending
    timer is the one its [timeout] variable names. *)
Theorem debounce_one_pending_timer (events : list debounce_event) :
  let d := fold_left debounce_step events debounce in
  (size (pending d) <= 1)%nat
  /\ forall id, is_Some (pending d !! id) -> timeout d = Some id.
Proof.
  cbv zeta. destruct (debounce_run_pending events) as [H|(id & args & Ht & Hp)].
  - rewrite H. split; [rewrite map_size_empty; lia|].
    intros id [x Hx]. rewrite lookup_empty in Hx. discriminate.
  - rewrite Hp, Ht. split; [rewrite map_size_singleton; lia|].
    intros id' [x Hx]. apply lookup_singleton_Some in Hx as [<- _]. reflexivity.
Qed.

(** X27: a burst of invocations calls the function once, with the
    arguments of the last invocation: while the burst lasts nothing is
    called, and when the timer of the last invocation expires the
    function is called with that invocation's arguments and no timer
    is left. *)
Theorem debounce_burst_calls_once (events : list debounce_event)
    (burst : list (list value)) (last : list value) :
  let before := fold_left debounce_step events debounce in
  let d := fold_left debounce_step (map Invoke burst ++ [Invoke last]) before in
  exists id,
    timeout d = Some id
    /\ pending d = {[id := last]}
    /\ calls d = calls before
    /\ calls (debounce_step d (Expire id)) = calls before ++ [last]
    /\ pending (debounce_step d (Expire id)) = ∅.
Proof.
  cbv zeta. set (before := fold_left debounce_step events debounce).
  pose proof (debounce_run_pending events) as Hbefore. cbv zeta in Hbefore.
  fold before in Hbefore. clearbody before.
  assert (Hburst : forall d,
             (pending d = ∅
              \/ exists id args, timeout d = Some id /\ pending d = {[id := args]}) ->
             calls (fold_left debounce_step (map Invoke burst) d) = calls d
             /\ (pending (fold_left debounce_step (map Invoke burst) d) = ∅
                 \/ exists id args,
                      timeout (fold_left debounce_step (map Invoke burst) d) = Some id
                      /\ pending (fold_left debounce_step (map Invoke burst) d)
                         = {[id := args]})).
  { induction burst as [|a burst IH]; intros d Hd; cbn [map fold_left]; [auto|].
    destruct (IH (debounce_step d (Invoke a)) (debounce_step_pending d (Invoke a) Hd))
      as [Hc Hp].
    split; [rewrite Hc; reflexivity | exact Hp]. }
  destruct (Hburst before Hbefore) as [Hcalls Hpending].
  rewrite fold_left_app. cbn [fold_left].
  set (d := fold_left debounce_step (map Invoke burst) before) in *. clearbody d.
  exists (next_timer d). cbn [debounce_step].
  assert (Hp : pending (executedFunction last d) = {[next_timer d := last]}).
  { unfold executedFunction. cbn [pending].
    destruct Hpending as [->|(id & old & -> & ->)].
    - destruct (timeout d); cbn [clear_timeout]; [rewrite delete_empty|]; reflexivity.
    - cbn [clear_timeout]. rewrite delete_singleton_eq. reflexivity. }
  split; [reflexivity|]. split; [exact Hp|]. split; [exact Hcalls|].
  unfold timer_expires. rewrite Hp, lookup_singleton_eq. cbn [calls pending].
  split.
  - rewrite <- Hcalls. reflexivity.
  - cbn [executedFunction timeout clear_timeout].
    rewrite delete_singleton_eq. apply delete_empty.
Qed.

End InterfaceFacts.
